(** * GoCactus: the PicoGo command-and-telemetry loop

    A shallow embedding of [pico-go-code/main.py]: the serial command
    dispatcher (one [try] block of twelve key handlers), the [except]
    handler, and the three-second telemetry check of the main loop.

    The program is sequential and talks to its collaborators (motor
    driver, pins, pixel strip, UART, ADCs, clock) through method calls.
    Every such call is recorded as an [event]; the two globals of the
    script ([speed], [t]) and the last value handed to each actuator form
    the [state].  Code that can raise runs in a small monad [Script] that
    returns the state and the events produced so far together with either
    a value or the exception. *)

From Stdlib Require Import ZArith QArith String Ascii List Permutation Lia.
From stdpp Require Import gmap strings list fin_maps.

Local Set Warnings "-register-all".
Local Open Scope string_scope.
Local Open Scope list_scope.
Local Open Scope Z_scope.

(** ** Values *)

(** What [ujson.loads] can return.  JSON [null] decodes to Python's [None],
    which is also what [dict.get] gives for a missing key. *)
Inductive jvalue : Type :=
  | JNull
  | JBool (b : bool)
  | JInt (z : Z)
  | JReal (lit : string)
  | JStr (s : string)
  | JList (l : list jvalue)
  | JDict (m : gmap string jvalue).

(** The Python objects an evaluated RGB text is modelled to give.
    [PIter] stands for any other iterable object (a range, a dict, a set,
    bytes), with the items it yields; [PObject] for an object that cannot
    be iterated. *)
Inductive pyval : Type :=
  | PNone
  | PBool (b : bool)
  | PInt (z : Z)
  | PFloat (lit : string)
  | PStr (s : string)
  | PTuple (l : list pyval)
  | PList (l : list pyval)
  | PObject (name : string)
  | PIter (items : list pyval).

(** Exceptions derived from [Exception], the class the handler on line 168
    catches. *)
Inductive exn : Type :=
  | ValueError
  | AttributeError
  | TypeError
  | Raised (cls : string).

Inductive direction : Type := Forward | Backward | Left | Right.

Inductive pin_mode : Type := PinIn | PinOut.

Inductive motion : Type :=
  | Stopped
  | Moving (d : direction) (v : Z).

(** ** Events: one constructor per collaborator call of the script *)
Inductive event : Type :=
  | EDrive (d : direction) (v : Z)
  | EStop
  | EWrite (s : string)
  | EBuz (v : Z)
  | ELed (v : Z)
  | EK2Init (m : pin_mode)
  | EK2Value (v : Z)
  | EPixelsSet (i : nat) (c : list pyval)
  | EPixelsShow
  | ESleep (secs : Z)
  | EPrint (e : exn)
  | EWriteStatus (p v temperature : Q).

(** ** State *)

(** [speed] and [t] are the globals of the script.  The other fields are
    the last value each actuator was given.

    Modelled from the spec: the drivers [Motor.PicoGo], [ws2812.NeoPixel]
    and [machine.Pin] are not in the sources; section 6 gives them as the
    interfaces Drive/Stop, SetPixel/Render, SetRelay, SetBuzzer and
    SetStatusLED, and each field below remembers the last such request. *)
Record state : Type := mkState {
  speed : Z;
  t : Z;
  motor : motion;
  buz : Z;
  led : Z;
  k2_mode : pin_mode;
  k2_level : Z;
  strip : list (list pyval);
  shown : list (list pyval)
}.

Definition set_speed (v : Z) (st : state) : state :=
  mkState v (t st) (motor st) (buz st) (led st) (k2_mode st) (k2_level st)
          (strip st) (shown st).

Definition set_t (v : Z) (st : state) : state :=
  mkState (speed st) v (motor st) (buz st) (led st) (k2_mode st) (k2_level st)
          (strip st) (shown st).

Definition set_motor (m : motion) (st : state) : state :=
  mkState (speed st) (t st) m (buz st) (led st) (k2_mode st) (k2_level st)
          (strip st) (shown st).

Definition set_buz (v : Z) (st : state) : state :=
  mkState (speed st) (t st) (motor st) v (led st) (k2_mode st) (k2_level st)
          (strip st) (shown st).

Definition set_led (v : Z) (st : state) : state :=
  mkState (speed st) (t st) (motor st) (buz st) v (k2_mode st) (k2_level st)
          (strip st) (shown st).

Definition set_k2_mode (m : pin_mode) (st : state) : state :=
  mkState (speed st) (t st) (motor st) (buz st) (led st) m (k2_level st)
          (strip st) (shown st).

Definition set_k2_level (v : Z) (st : state) : state :=
  mkState (speed st) (t st) (motor st) (buz st) (led st) (k2_mode st) v
          (strip st) (shown st).

Definition set_strip (px : list (list pyval)) (st : state) : state :=
  mkState (speed st) (t st) (motor st) (buz st) (led st) (k2_mode st)
          (k2_level st) px (shown st).

Definition set_shown (px : list (list pyval)) (st : state) : state :=
  mkState (speed st) (t st) (motor st) (buz st) (led st) (k2_mode st)
          (k2_level st) (strip st) px.

(** The relay is released when the K2 pin is a high-impedance input, and
    pressed when it is an output driven low. *)
Definition relay_released (st : state) : bool :=
  match k2_mode st with PinIn => true | PinOut => false end.

Definition relay_pressed (st : state) : bool :=
  match k2_mode st with PinIn => false | PinOut => k2_level st =? 0 end.

(** ** The monad of the script: state, events, exceptions *)

Definition Script (A : Type) : Type := state -> state * list event * (exn + A).

Definition ret {A} (a : A) : Script A := fun st => (st, [], inr a).

Definition raise {A} (e : exn) : Script A := fun st => (st, [], inl e).

Definition bind {A B} (m : Script A) (f : A -> Script B) : Script B := fun st =>
  match m st with
  | (st1, tr1, inl e) => (st1, tr1, inl e)
  | (st1, tr1, inr a) =>
      match f a st1 with
      | (st2, tr2, r) => (st2, tr1 ++ tr2, r)
      end
  end.

(** [try: m except Exception as e: h e] *)
Definition catch {A} (m : Script A) (h : exn -> Script A) : Script A := fun st =>
  match m st with
  | (st1, tr1, inl e) =>
      match h e st1 with
      | (st2, tr2, r) => (st2, tr1 ++ tr2, r)
      end
  | r => r
  end.

Notation "x <- m ; k" := (bind m (fun x => k))
  (at level 20, m at level 100, k at level 200, only parsing).
Notation "m >> k" := (bind m (fun _ => k))
  (at level 100, k at level 200, right associativity).

Definition lift {A} (r : exn + A) : Script A := fun st => (st, [], r).

Definition emit (f : state -> state) (e : event) : Script unit :=
  fun st => (f st, [e], inr tt).

Definition final {A} (r : state * list event * (exn + A)) : state := r.1.1.
Definition trace {A} (r : state * list event * (exn + A)) : list event := r.1.2.
Definition result {A} (r : state * list event * (exn + A)) : exn + A := r.2.

(** ** Text helpers *)

(** The double-quote character, and the flat JSON object with one member
    that the script writes as a string literal. *)
Definition dq : string := String (ascii_of_nat 34) EmptyString.

Definition quoted (s : string) : string := dq +:+ s +:+ dq.

Definition json1 (k v : string) : string :=
  "{" +:+ quoted k +:+ ":" +:+ quoted v +:+ "}".

(** ** Reference instances of the two Python builtins

    [eval] and [ujson.loads] are builtins of the interpreter, not code of
    the script; the model takes them as parameters.  The two functions
    below are small executable instances, used to run the model on
    concrete frames: an evaluator for integer-tuple literals and a decoder
    for the flat frames of the protocol. *)

Definition is_digit (c : ascii) : bool :=
  (48 <=? nat_of_ascii c)%nat && (nat_of_ascii c <=? 57)%nat.

Fixpoint digits_value (acc : Z) (s : string) : option Z :=
  match s with
  | EmptyString => Some acc
  | String c r =>
      if is_digit c
      then digits_value (10 * acc + (Z.of_nat (nat_of_ascii c) - 48)) r
      else None
  end.

(** A decimal integer literal of Python 3: no sign, no leading zero. *)
Definition int_literal (s : string) : option Z :=
  match s with
  | EmptyString => None
  | String "0"%char EmptyString => Some 0
  | String "0"%char _ => None
  | _ => digits_value 0 s
  end.

Fixpoint split_commas (s : string) : list string :=
  match s with
  | EmptyString => [EmptyString]
  | String c r =>
      if Ascii.eqb c ","%char
      then EmptyString :: split_commas r
      else match split_commas r with
           | p :: ps => String c p :: ps
           | [] => [String c EmptyString]
           end
  end.

(** Drops one pair of parentheses around the whole text, if there is one. *)
Definition unparen (s : string) : string :=
  match s with
  | String "("%char r =>
      match String.get (String.length r - 1) r with
      | Some ")"%char => String.substring 0 (String.length r - 1) r
      | _ => s
      end
  | _ => s
  end.

Fixpoint all_ints (ps : list string) : option (list Z) :=
  match ps with
  | [] => Some []
  | p :: r =>
      match int_literal p, all_ints r with
      | Some n, Some ns => Some (n :: ns)
      | _, _ => None
      end
  end.

(** [literal_eval "255,0,0"] and [literal_eval "(255,0,0)"] are the tuple
    [(255, 0, 0)]; [literal_eval "255"] is the integer 255.  Texts outside
    this fragment are not evaluated. *)
Definition literal_eval (s : string) : option pyval :=
  match all_ints (split_commas (unparen s)) with
  | Some [n] => Some (PInt n)
  | Some (n1 :: n2 :: ns) => Some (PTuple (map PInt (n1 :: n2 :: ns)))
  | _ => None
  end.

Definition ref_eval (s : string) : exn + pyval :=
  match literal_eval s with
  | Some v => inr v
  | None => inl (Raised "SyntaxError")
  end.

(** The pixel driver is taken to accept exactly triples of integers. *)
Definition ref_accepts (c : list pyval) : bool :=
  match c with
  | [PInt _; PInt _; PInt _] => true
  | _ => false
  end.

(** Reads a string body up to its closing quote; escapes are not covered. *)
Fixpoint read_string (s : string) : option (string * string) :=
  match s with
  | EmptyString => None
  | String c r =>
      if Ascii.eqb c (ascii_of_nat 34) then Some (EmptyString, r)
      else if Ascii.eqb c (ascii_of_nat 92) then None
      else match read_string r with
           | Some (a, rest) => Some (String c a, rest)
           | None => None
           end
  end.

Fixpoint read_members (fuel : nat) (s : string) (acc : gmap string jvalue)
  : option (gmap string jvalue) :=
  match fuel, s with
  | S n, String q r =>
      if Ascii.eqb q (ascii_of_nat 34) then
        match read_string r with
        | Some (k, String ":"%char (String q2 r2)) =>
            if Ascii.eqb q2 (ascii_of_nat 34) then
              match read_string r2 with
              | Some (v, String ","%char r3) => read_members n r3 (<[k := JStr v]> acc)
              | Some (v, String "}"%char EmptyString) => Some (<[k := JStr v]> acc)
              | _ => None
              end
            else None
        | _ => None
        end
      else None
  | _, _ => None
  end.

(** Decodes [null], [[]], an unsigned integer, and a flat object whose
    members are strings, written without white space; every other text is
    reported as a decode failure. *)
Definition ref_loads (s : string) : exn + jvalue :=
  match s with
  | "null" => inr JNull
  | "[]" => inr (JList [])
  | "{}" => inr (JDict ∅)
  | String "{"%char r =>
      match read_members (String.length r) r ∅ with
      | Some m => inr (JDict m)
      | None => inl ValueError
      end
  | _ =>
      match int_literal s with
      | Some n => inr (JInt n)
      | None => inl ValueError
      end
  end.

(** ** Frames used to run the model *)

Definition json2 (k1 v1 k2 v2 : string) : string :=
  "{" +:+ quoted k1 +:+ ":" +:+ quoted v1 +:+ ","
      +:+ quoted k2 +:+ ":" +:+ quoted v2 +:+ "}".

(** The truncated frame of the protocol description. *)
Definition truncated_frame : string := "{" +:+ quoted "Forward" +:+ ":".

(** A frame with four keys that act on four different parts. *)
Definition mixed_frame : jvalue :=
  JDict (<["RGB" := JStr "(255,0,0)"]>
         (<["BZ" := JStr "on"]>
          (<["Low" := JStr "Down"]> {[ "Left" := JStr "Down" ]}))).

(** ** Collaborator calls *)

Definition uart_write (s : string) : Script unit := emit id (EWrite s).

Definition M_forward (v : Z) : Script unit :=
  emit (set_motor (Moving Forward v)) (EDrive Forward v).
Definition M_backward (v : Z) : Script unit :=
  emit (set_motor (Moving Backward v)) (EDrive Backward v).
Definition M_left (v : Z) : Script unit :=
  emit (set_motor (Moving Left v)) (EDrive Left v).
Definition M_right (v : Z) : Script unit :=
  emit (set_motor (Moving Right v)) (EDrive Right v).
Definition M_stop : Script unit := emit (set_motor Stopped) EStop.

Definition BUZ_value (v : Z) : Script unit := emit (set_buz v) (EBuz v).
Definition led_value (v : Z) : Script unit := emit (set_led v) (ELed v).
Definition k2_init (m : pin_mode) : Script unit := emit (set_k2_mode m) (EK2Init m).
Definition k2_value (v : Z) : Script unit := emit (set_k2_level v) (EK2Value v).
Definition strip_pixels_show : Script unit :=
  fun st => (set_shown (strip st) st, [EPixelsShow], inr tt).
Definition utime_sleep (secs : Z) : Script unit := emit id (ESleep secs).
Definition print_error (e : exn) : Script unit := emit id (EPrint e).

Definition get_speed : Script Z := fun st => (st, [], inr (speed st)).
Definition assign_speed (v : Z) : Script unit := fun st => (set_speed v st, [], inr tt).

(** Lines 23-30. *)
Definition press_button : Script unit :=
  uart_write (json1 "State" "[INFO] Simulating button press (connecting K2 to GND)") >>
  k2_init PinOut >>
  k2_value 0.

Definition release_button : Script unit :=
  uart_write (json1 "State" "[INFO] Releasing button (disconnecting K2)") >>
  k2_init PinIn.

(** Lines 44-46. *)
Definition LOW_SPEED : Z := 30.
Definition MEDIUM_SPEED : Z := 50.
Definition HIGH_SPEED : Z := 80.

Definition BLACK : list pyval := [PInt 0; PInt 0; PInt 0].

(** The state when the loop is entered (lines 7-49): LED on, buzzer off,
    button released, strip blanked and rendered, [speed = 50], [t = 0]. *)
Definition startup : state :=
  mkState 50 0 Stopped 0 1 PinIn 0 (replicate 4 BLACK) (replicate 4 BLACK).

(** ** Python operations on decoded values *)

(** [j.get(k)]: only a dict has the method. *)
Definition j_get (j : jvalue) (k : string) : Script jvalue :=
  match j with
  | JDict m => ret (default JNull (m !! k))
  | _ => raise AttributeError
  end.

(** [cmd != None] *)
Definition not_None (cmd : jvalue) : bool :=
  match cmd with JNull => false | _ => true end.

(** [cmd == s] for a string literal [s] *)
Definition eq_str (cmd : jvalue) (s : string) : bool :=
  match cmd with JStr c => String.eqb c s | _ => false end.

Fixpoint chars (s : string) : list pyval :=
  match s with
  | EmptyString => []
  | String c r => PStr (String c EmptyString) :: chars r
  end.

(** [tuple(v)] *)
Definition py_tuple (v : pyval) : Script (list pyval) :=
  match v with
  | PTuple l | PList l | PIter l => ret l
  | PStr s => ret (chars s)
  | _ => raise TypeError
  end.

(** ** One pass of the main loop: what the collaborators return *)
Record tick : Type := mkTick {
  rx : option string;   (* uart.read(), line 52 *)
  now_check : Z;        (* utime.ticks_ms(), line 172 *)
  now_stamp : Z;        (* utime.ticks_ms(), line 173 *)
  temp_raw : Z;         (* temp.read_u16(), line 174 *)
  bat_raw : Z           (* bat.read_u16(), line 176 *)
}.

(** ** Telemetry arithmetic, lines 174-179

    The script computes in floating point; the model computes the same
    expressions over the rationals.  The two comparisons of the clamp are
    exact in both. *)
Definition Qlt_bool (x y : Q) : bool := negb (Qle_bool y x).

Definition temperature_of (raw : Z) : Q :=
  let reading := (inject_Z raw * 3.3 / 65535)%Q in
  (27 - (reading - 0.706) / 0.001721)%Q.

Definition voltage_of (raw : Z) : Q := (inject_Z raw * 3.3 / 65535 * 2)%Q.

Definition clamp (p : Q) : Q :=
  let p1 := if Qlt_bool p 0 then 0%Q else p in
  if Qlt_bool 100 p1 then 100%Q else p1.

Definition percent_of (raw : Z) : Q :=
  let v := voltage_of raw in
  let p := ((v - 3) * 100 / 1.2)%Q in
  clamp p.

Inductive key : Type :=
  | KForward | KBackward | KLeft | KRight
  | KLow | KMedium | KHigh
  | KBZ | KLED | KRGB | KToyGPIO15 | KToyGPIO15Pulse.

Section Firmware.

(** [ujson.loads] and [eval], taken as functions of their text, and
    whether the pixel driver takes a colour: it may raise, before storing
    anything, on a value that is not a colour triple.

    Scope of [py_eval].  [eval(cmd)] on line 137 runs the received text
    in the globals of the script, so a text can call the collaborators,
    rebind [speed] or [t], read any global, or raise an exception that
    line 168 does not catch.  [py_eval] gives the value, or the caught
    exception, of a text that does none of this.  The texts of the
    literal fragment ([literal_eval]: integers and tuples of integers)
    are of that kind; every statement below that ranges over arbitrary
    frames or runs is restricted to them by [rgb_inert]. *)
Variable ujson_loads : string -> exn + jvalue.
Variable py_eval : string -> exn + pyval.
Variable strip_accepts : list pyval -> bool.

Definition strip_pixels_set (i : nat) (c : list pyval) : Script unit :=
  if strip_accepts c
  then fun st => (set_strip (<[i := c]> (strip st)) st, [EPixelsSet i c], inr tt)
  else raise (Raised "pixels_set").

(** *** The twelve blocks of the [try] body, lines 58-166 *)

Definition blk_forward (j : jvalue) : Script unit :=
  cmd <- j_get j "Forward" ;
  if not_None cmd then
    if eq_str cmd "Down" then
      (v <- get_speed ; M_forward v >> uart_write (json1 "State" "Forward"))
    else if eq_str cmd "Up" then
      (M_stop >> uart_write (json1 "State" "Stop"))
    else ret tt
  else ret tt.

Definition blk_backward (j : jvalue) : Script unit :=
  cmd <- j_get j "Backward" ;
  if not_None cmd then
    if eq_str cmd "Down" then
      (v <- get_speed ; M_backward v >> uart_write (json1 "State" "Backward"))
    else if eq_str cmd "Up" then
      (M_stop >> uart_write (json1 "State" "Stop"))
    else ret tt
  else ret tt.

Definition blk_left (j : jvalue) : Script unit :=
  cmd <- j_get j "Left" ;
  if not_None cmd then
    if eq_str cmd "Down" then
      (M_left 20 >> uart_write (json1 "State" "Left"))
    else if eq_str cmd "Up" then
      (M_stop >> uart_write (json1 "State" "Stop"))
    else ret tt
  else ret tt.

Definition blk_right (j : jvalue) : Script unit :=
  cmd <- j_get j "Right" ;
  if not_None cmd then
    if eq_str cmd "Down" then
      (M_right 20 >> uart_write (json1 "State" "Right"))
    else if eq_str cmd "Up" then
      (M_stop >> uart_write (json1 "State" "Stop"))
    else ret tt
  else ret tt.

Definition blk_low (j : jvalue) : Script unit :=
  cmd <- j_get j "Low" ;
  if eq_str cmd "Down" then
    (uart_write (json1 "State" "Low") >> assign_speed LOW_SPEED)
  else ret tt.

Definition blk_medium (j : jvalue) : Script unit :=
  cmd <- j_get j "Medium" ;
  if eq_str cmd "Down" then
    (uart_write (json1 "State" "Medium") >> assign_speed MEDIUM_SPEED)
  else ret tt.

Definition blk_high (j : jvalue) : Script unit :=
  cmd <- j_get j "High" ;
  if eq_str cmd "Down" then
    (uart_write (json1 "State" "High") >> assign_speed HIGH_SPEED)
  else ret tt.

Definition blk_bz (j : jvalue) : Script unit :=
  cmd <- j_get j "BZ" ;
  if not_None cmd then
    if eq_str cmd "on" then
      (BUZ_value 1 >> uart_write (json1 "BZ" "ON") >>
       uart_write (json1 "State" "BZ:ON"))
    else if eq_str cmd "off" then
      (BUZ_value 0 >> uart_write (json1 "BZ" "OFF") >>
       uart_write (json1 "State" "BZ:OFF"))
    else ret tt
  else ret tt.

Definition blk_led (j : jvalue) : Script unit :=
  cmd <- j_get j "LED" ;
  if not_None cmd then
    if eq_str cmd "on" then
      (led_value 1 >> uart_write (json1 "LED" "ON") >>
       uart_write (json1 "State" "LED:ON"))
    else if eq_str cmd "off" then
      (led_value 0 >> uart_write (json1 "LED" "OFF") >>
       uart_write (json1 "State" "LED:OFF"))
    else ret tt
  else ret tt.

(** [eval(cmd)] raises [TypeError] unless [cmd] is a string; when it
    returns, [cmd] is therefore a string and the concatenation on line
    143 is defined.  The block follows the source for the texts that
    [py_eval] covers, those that run no code (see the scope note at
    [py_eval]). *)
Definition blk_rgb (j : jvalue) : Script unit :=
  cmd <- j_get j "RGB" ;
  if not_None cmd then
    match cmd with
    | JStr text =>
        v <- lift (py_eval text) ;
        rgb <- py_tuple v ;
        strip_pixels_set 0 rgb >>
        strip_pixels_set 1 rgb >>
        strip_pixels_set 2 rgb >>
        strip_pixels_set 3 rgb >>
        strip_pixels_show >>
        uart_write (json1 "State" ("RGB:(" +:+ text +:+ ")"))
    | _ => raise TypeError
    end
  else ret tt.

Definition blk_toy (j : jvalue) : Script unit :=
  cmd <- j_get j "ToyGPIO15" ;
  if not_None cmd then
    if eq_str cmd "on" then
      (press_button >> uart_write (json1 "ToyGPIO15" "ON"))
    else if eq_str cmd "off" then
      (release_button >> uart_write (json1 "ToyGPIO15" "OFF"))
    else ret tt
  else ret tt.

Definition blk_pulse (j : jvalue) : Script unit :=
  cmd <- j_get j "ToyGPIO15Pulse" ;
  if eq_str cmd "pulse" then
    (uart_write (json1 "State" "[SETUP] Starting toy pulse sequence") >>
     release_button >>
     utime_sleep 2 >>
     press_button >>
     utime_sleep 2 >>
     release_button >>
     uart_write (json1 "State" "[DONE] Cycle complete"))
  else ret tt.

(** Lines 58-166, after [j = ujson.loads(s)]. *)
Definition try_body (j : jvalue) : Script unit :=
  blk_forward j >> blk_backward j >> blk_left j >> blk_right j >>
  blk_low j >> blk_medium j >> blk_high j >>
  blk_bz j >> blk_led j >> blk_rgb j >> blk_toy j >> blk_pulse j.


(** Lines 55-166: the whole [try] block, from the decoding on. *)
Definition try_block (s : string) : Script unit :=
  j <- lift (ujson_loads s) ; try_body j.

(** Lines 54-169: the [try] block and the handler that swallows the
    exception. *)
Definition on_frame (s : string) : Script unit :=
  catch (try_block s) print_error.

(** The same for an already decoded frame. *)
Definition process (j : jvalue) : Script unit :=
  catch (try_body j) print_error.

(** *** The telemetry check, lines 172-183 *)
Definition status_update (tk : tick) : Script unit := fun st =>
  if 3000 <? now_check tk - t st then
    (set_t (now_stamp tk) st,
     [EWriteStatus (percent_of (bat_raw tk)) (voltage_of (bat_raw tk))
                   (temperature_of (temp_raw tk))],
     inr tt)
  else (st, [], inr tt).

(** *** One pass of [while True], lines 52-183 *)
Definition iteration (tk : tick) : Script unit :=
  match rx tk with
  | Some s => on_frame s
  | None => ret tt
  end >>
  status_update tk.

Fixpoint run (tks : list tick) : Script unit :=
  match tks with
  | [] => ret tt
  | tk :: rest => iteration tk >> run rest
  end.

Fixpoint process_all (js : list jvalue) : Script unit :=
  match js with
  | [] => ret tt
  | j :: rest => process j >> process_all rest
  end.

(** *** Frames and names used in the statements *)

Definition frame1 (k v : string) : jvalue := JDict {[ k := JStr v ]}.

Definition dir_name (d : direction) : string :=
  match d with
  | Forward => "Forward"
  | Backward => "Backward"
  | Left => "Left"
  | Right => "Right"
  end.

(** The magnitude passed to the motor driver by the "Down" branch of a
    direction block. *)
Definition drive_magnitude (d : direction) (st : state) : Z :=
  match d with
  | Forward | Backward => speed st
  | Left | Right => 20
  end.

Definition writes (tr : list event) : list string :=
  omap (fun e => match e with EWrite s => Some s | _ => None end) tr.

Definition is_status (e : event) : bool :=
  match e with EWriteStatus _ _ _ => true | _ => false end.

Fixpoint status_count (tr : list event) : nat :=
  match tr with
  | [] => 0
  | e :: rest => (if is_status e then 1 else 0) + status_count rest
  end%nat.

(** *** The dispatcher as a list of blocks *)

Definition key_name (k : key) : string :=
  match k with
  | KForward => "Forward" | KBackward => "Backward"
  | KLeft => "Left" | KRight => "Right"
  | KLow => "Low" | KMedium => "Medium" | KHigh => "High"
  | KBZ => "BZ" | KLED => "LED" | KRGB => "RGB"
  | KToyGPIO15 => "ToyGPIO15" | KToyGPIO15Pulse => "ToyGPIO15Pulse"
  end.

Definition block (k : key) : jvalue -> Script unit :=
  match k with
  | KForward => blk_forward | KBackward => blk_backward
  | KLeft => blk_left | KRight => blk_right
  | KLow => blk_low | KMedium => blk_medium | KHigh => blk_high
  | KBZ => blk_bz | KLED => blk_led | KRGB => blk_rgb
  | KToyGPIO15 => blk_toy | KToyGPIO15Pulse => blk_pulse
  end.

(** The order of the blocks in the source. *)
Definition key_order : list key :=
  [KForward; KBackward; KLeft; KRight; KLow; KMedium; KHigh;
   KBZ; KLED; KRGB; KToyGPIO15; KToyGPIO15Pulse].

Definition keys_before_rgb : list key :=
  [KForward; KBackward; KLeft; KRight; KLow; KMedium; KHigh; KBZ; KLED].

(** The blocks run in a given order; [try_body] is the instance at
    [key_order]. *)
Fixpoint dispatch_in_order (ks : list key) (j : jvalue) : Script unit :=
  match ks with
  | [] => ret tt
  | k :: rest => block k j >> dispatch_in_order rest j
  end.

(** *** What a block does, as a function of the value under its key *)

Inductive preset : Type := Low | Medium | High.

Definition preset_name (p : preset) : string :=
  match p with Low => "Low" | Medium => "Medium" | High => "High" end.

Definition preset_speed (p : preset) : Z :=
  match p with
  | Low => LOW_SPEED
  | Medium => MEDIUM_SPEED
  | High => HIGH_SPEED
  end.

Inductive action : Type :=
  | Idle
  | Drive (d : direction)
  | Halt
  | Select (p : preset)
  | Buzzer (on : bool)
  | StatusLed (on : bool)
  | Colour (cmd : jvalue)
  | Relay (press : bool)
  | Pulse.

Definition decode_direction (d : direction) (cmd : jvalue) : action :=
  if eq_str cmd "Down" then Drive d
  else if eq_str cmd "Up" then Halt
  else Idle.

Definition decode_switch (f : bool -> action) (cmd : jvalue) : action :=
  if eq_str cmd "on" then f true
  else if eq_str cmd "off" then f false
  else Idle.

Definition decode (k : key) (cmd : jvalue) : action :=
  match k with
  | KForward => decode_direction Forward cmd
  | KBackward => decode_direction Backward cmd
  | KLeft => decode_direction Left cmd
  | KRight => decode_direction Right cmd
  | KLow => if eq_str cmd "Down" then Select Low else Idle
  | KMedium => if eq_str cmd "Down" then Select Medium else Idle
  | KHigh => if eq_str cmd "Down" then Select High else Idle
  | KBZ => decode_switch Buzzer cmd
  | KLED => decode_switch StatusLed cmd
  | KRGB => if not_None cmd then Colour cmd else Idle
  | KToyGPIO15 => decode_switch Relay cmd
  | KToyGPIO15Pulse => if eq_str cmd "pulse" then Pulse else Idle
  end.

Definition level (on : bool) : Z := if on then 1 else 0.
Definition ON_OFF (on : bool) : string := if on then "ON" else "OFF".

Definition perform (a : action) : Script unit :=
  match a with
  | Idle => ret tt
  | Drive d =>
      v <- (fun st => (st, [], inr (drive_magnitude d st))) ;
      emit (set_motor (Moving d v)) (EDrive d v) >>
      uart_write (json1 "State" (dir_name d))
  | Halt => M_stop >> uart_write (json1 "State" "Stop")
  | Select p =>
      uart_write (json1 "State" (preset_name p)) >>
      assign_speed (preset_speed p)
  | Buzzer on =>
      BUZ_value (level on) >>
      uart_write (json1 "BZ" (ON_OFF on)) >>
      uart_write (json1 "State" ("BZ:" +:+ ON_OFF on))
  | StatusLed on =>
      led_value (level on) >>
      uart_write (json1 "LED" (ON_OFF on)) >>
      uart_write (json1 "State" ("LED:" +:+ ON_OFF on))
  | Colour cmd =>
      match cmd with
      | JStr text =>
          v <- lift (py_eval text) ;
          rgb <- py_tuple v ;
          strip_pixels_set 0 rgb >>
          strip_pixels_set 1 rgb >>
          strip_pixels_set 2 rgb >>
          strip_pixels_set 3 rgb >>
          strip_pixels_show >>
          uart_write (json1 "State" ("RGB:(" +:+ text +:+ ")"))
      | _ => raise TypeError
      end
  | Relay press =>
      (if press then press_button else release_button) >>
      uart_write (json1 "ToyGPIO15" (ON_OFF press))
  | Pulse =>
      uart_write (json1 "State" "[SETUP] Starting toy pulse sequence") >>
      release_button >>
      utime_sleep 2 >>
      press_button >>
      utime_sleep 2 >>
      release_button >>
      uart_write (json1 "State" "[DONE] Cycle complete")
  end.

Definition is_dict (j : jvalue) : bool :=
  match j with JDict _ => true | _ => false end.

(** The value a block sees: [j.get(key)] on a dict. *)
Definition lookup_key (j : jvalue) (k : string) : jvalue :=
  match j with
  | JDict m => default JNull (m !! k)
  | _ => JNull
  end.

Definition action_of (j : jvalue) (k : key) : action :=
  decode k (lookup_key j (key_name k)).

(** *** Frames whose RGB value runs no code *)

(** The RGB value of the frame is missing or null (the block is skipped),
    is not a string ([eval] raises [TypeError] at once), or is a text of
    the literal fragment, an integer or a tuple of integers, whose
    evaluation reads no global and has no effect. *)
Definition rgb_inert (j : jvalue) : bool :=
  match lookup_key j "RGB" with
  | JStr text =>
      match literal_eval text with
      | Some _ => true
      | None => false
      end
  | _ => true
  end.

(** The same for the bytes read, once decoded, and for a pass. *)
Definition inert_bytes (s : string) : bool :=
  match ujson_loads s with
  | inr j => rgb_inert j
  | inl _ => true
  end.

Definition inert_tick (tk : tick) : bool :=
  match rx tk with
  | Some s => inert_bytes s
  | None => true
  end.

(** *** Footprints of the actions *)

Inductive part : Type :=
  | MotorPart | SpeedPart | BuzzerPart | LedPart | StripPart | RelayPart.

Definition part_eqb (p q : part) : bool :=
  match p, q with
  | MotorPart, MotorPart | SpeedPart, SpeedPart | BuzzerPart, BuzzerPart
  | LedPart, LedPart | StripPart, StripPart | RelayPart, RelayPart => true
  | _, _ => false
  end.

Definition written (a : action) : option part :=
  match a with
  | Idle => None
  | Drive _ | Halt => Some MotorPart
  | Select _ => Some SpeedPart
  | Buzzer _ => Some BuzzerPart
  | StatusLed _ => Some LedPart
  | Colour _ => Some StripPart
  | Relay _ | Pulse => Some RelayPart
  end.

Definition reads_speed (a : action) : bool :=
  match a with
  | Drive Forward | Drive Backward => true
  | _ => false
  end.

Definition writes_speed (a : action) : bool :=
  match a with Select _ => true | _ => false end.

(** Two actions are independent when neither writes a part of the state
    that the other reads or writes.  An RGB action counts as reading
    nothing, which is so for the literal texts that [order_free]
    admits. *)
Definition independent (a b : action) : bool :=
  match written a, written b with
  | Some p, Some q =>
      negb (part_eqb p q)
      && negb (reads_speed a && writes_speed b)
      && negb (reads_speed b && writes_speed a)
  | _, _ => true
  end.

(** The RGB value, if any, is accepted: it evaluates, converts to a
    tuple, and the pixel driver takes it. *)
Definition colour_ok (a : action) : bool :=
  match a with
  | Colour (JStr text) =>
      match py_eval text with
      | inr (PTuple l) | inr (PList l) | inr (PIter l) => strip_accepts l
      | inr (PStr s) => strip_accepts (chars s)
      | _ => false
      end
  | Colour _ => false
  | _ => true
  end.

Definition key_eqb (a b : key) : bool :=
  String.eqb (key_name a) (key_name b).

(** A frame whose keys can be handled in any order. *)
Definition order_free (j : jvalue) : bool :=
  is_dict j
  && colour_ok (action_of j KRGB)
  && forallb (fun k1 =>
       forallb (fun k2 =>
         key_eqb k1 k2 || independent (action_of j k1) (action_of j k2))
       key_order) key_order
  && rgb_inert j.

(** Same final state, same result, same effects up to their order. *)
Definition same_outcome {A} (r1 r2 : state * list event * (exn + A)) : Prop :=
  final r1 = final r2 /\ Permutation (trace r1) (trace r2)
  /\ result r1 = result r2.

(** *** Speed selection in a frame *)
Definition selects_speed (j : jvalue) : bool :=
  eq_str (lookup_key j "Low") "Down"
  || eq_str (lookup_key j "Medium") "Down"
  || eq_str (lookup_key j "High") "Down".

(** *** A Hoare triple for [Script]: from a state satisfying [P], every event
    produced satisfies [E] and the state reached, whether the computation
    returns or raises, satisfies [Q]. *)
Definition triple {A} (P : state -> Prop) (m : Script A) (E : event -> Prop)
           (Q : state -> Prop) : Prop :=
  forall st, P st -> Forall E (trace (m st)) /\ Q (final (m st)).

(** The frame cannot be decoded to an object. *)
Definition undecodable (s : string) : bool :=
  match ujson_loads s with
  | inr (JDict _) => false
  | _ => true
  end.

Definition idle_tick (tk : tick) : tick :=
  mkTick None (now_check tk) (now_stamp tk) (temp_raw tk) (bat_raw tk).

(** Left and right drive calls are made at magnitude 20. *)
Definition turns_at_20 (e : event) : Prop :=
  match e with
  | EDrive Left v | EDrive Right v => v = 20
  | _ => True
  end.



(** Forward and backward drive calls are made at magnitude [v]. *)
Definition drives_at (v : Z) (e : event) : Prop :=
  match e with
  | EDrive Forward w | EDrive Backward w => w = v
  | _ => True
  end.

(** Processing [j] from [st] drives forward and backward at [v] only,
    and does so when the frame asks for it. *)
Definition drives_with (v : Z) (j : jvalue) (st : state) : Prop :=
  Forall (drives_at v) (trace (process j st))
  /\ (lookup_key j "Forward" = JStr "Down" ->
      In (EDrive Forward v) (trace (process j st)))
  /\ (lookup_key j "Backward" = JStr "Down" ->
      In (EDrive Backward v) (trace (process j st))).

(** *** Statements of the protocol description that the code does not
    meet, as they are worded there *)

(** A telemetry message in every pass that runs at or after the interval
    boundary. *)
Definition emits_at_boundary : Prop :=
  forall (tk : tick) (st : state),
    3000 <= now_check tk - t st ->
    status_count (trace (iteration tk st)) = 1%nat.


(** Any processing order of the keys gives the same outcome. *)
Definition order_invariant : Prop :=
  forall (j : jvalue) (ks : list key) (st : state),
    is_dict j = true -> Permutation ks key_order ->
    same_outcome (dispatch_in_order ks j st) (try_body j st).

(** The acknowledgement of the RGB frame repeats the value text as it
    is. *)
Definition rgb_ack_is_plain : Prop :=
  forall st : state,
    writes (trace (process (frame1 "RGB" "(255,0,0)") st))
    = [json1 "State" "RGB:(255,0,0)"].

(** *** Start-up, lines 7-49 *)

Definition assign_t (v : Z) : Script unit := fun st => (set_t v st, [], inr tt).

(** The calls made before the loop is entered: the LED pin is set, the
    buzzer pin cleared, the K2 pin created as an output and released, the
    four pixels blanked and rendered, and the two globals assigned.  The
    constructors of the drivers (ADC, PicoGo, UART, NeoPixel) are not
    events of the model. *)
Definition boot : Script unit :=
  led_value 1 >>
  BUZ_value 0 >>
  k2_init PinOut >>
  release_button >>
  strip_pixels_set 0 BLACK >>
  strip_pixels_set 1 BLACK >>
  strip_pixels_set 2 BLACK >>
  strip_pixels_set 3 BLACK >>
  strip_pixels_show >>
  assign_speed 50 >>
  assign_t 0.

(** *** Parts of the state, for statements about what a frame leaves alone *)

Definition untouched (p : part) (st st' : state) : Prop :=
  match p with
  | MotorPart => motor st' = motor st
  | SpeedPart => speed st' = speed st
  | BuzzerPart => buz st' = buz st
  | LedPart => led st' = led st
  | StripPart => strip st' = strip st /\ shown st' = shown st
  | RelayPart => k2_mode st' = k2_mode st /\ k2_level st' = k2_level st
  end.

(** The magnitudes the motor driver is ever given. *)
Definition motion_ok (m : motion) : Prop :=
  match m with
  | Stopped => True
  | Moving Forward v | Moving Backward v => In v [30; 50; 80]
  | Moving Left v | Moving Right v => v = 20
  end.

Definition well_formed (st : state) : Prop :=
  In (speed st) [30; 50; 80]
  /\ motion_ok (motor st)
  /\ In (buz st) [0; 1]
  /\ In (led st) [0; 1]
  /\ k2_level st = 0
  /\ length (strip st) = 4%nat
  /\ length (shown st) = 4%nat.

(** *** The values each key reacts to *)

Definition accepted_values (k : key) : list string :=
  match k with
  | KForward | KBackward | KLeft | KRight => ["Down"; "Up"]
  | KLow | KMedium | KHigh => ["Down"]
  | KBZ | KLED | KToyGPIO15 => ["on"; "off"]
  | KToyGPIO15Pulse => ["pulse"]
  | KRGB => []
  end.

(** The frame that carries only what [m] has under the key [k]. *)
Definition only_key (m : gmap string jvalue) (k : key) : jvalue :=
  match m !! key_name k with
  | Some v => JDict {[ key_name k := v ]}
  | None => JDict ∅
  end.

(** The [try] bodies of a list of frames, one after the other; the first
    exception ends the sequence. *)
Fixpoint try_bodies (js : list jvalue) : Script unit :=
  match js with
  | [] => ret tt
  | j :: rest => try_body j >> try_bodies rest
  end.

(** The telemetry writes of a trace. *)
Definition status_events (tr : list event) : list event :=
  List.filter is_status tr.

(** The preset a frame leaves selected: the last speed block that fires
    wins. *)
Definition speed_after (j : jvalue) (v : Z) : Z :=
  if eq_str (lookup_key j "High") "Down" then HIGH_SPEED
  else if eq_str (lookup_key j "Medium") "Down" then MEDIUM_SPEED
  else if eq_str (lookup_key j "Low") "Down" then LOW_SPEED
  else v.

(** The motion a frame leaves the motors in: of the direction blocks
    that fire, the last one in source order decides. *)
Definition motor_step (d : direction) (cmd : jvalue) (v : Z) (m : motion)
  : motion :=
  if eq_str cmd "Down" then Moving d v
  else if eq_str cmd "Up" then Stopped
  else m.

Definition motor_after (j : jvalue) (st : state) : motion :=
  motor_step Right (lookup_key j "Right") 20
    (motor_step Left (lookup_key j "Left") 20
      (motor_step Backward (lookup_key j "Backward") (speed st)
        (motor_step Forward (lookup_key j "Forward") (speed st) (motor st)))).

Definition not_a_sleep (e : event) : Prop :=
  match e with ESleep _ => False | _ => True end.

(** ** Properties *)

(** *** Laws of the monad, pointwise *)

Lemma bind_ext {A B} (m : Script A) (k k' : A -> Script B) st :
  (forall a st', k a st' = k' a st') -> bind m k st = bind m k' st.
Proof.
  intros H. unfold bind. destruct (m st) as [[st1 tr1] [e | a]]; [reflexivity |].
  now rewrite H.
Qed.

Lemma bind_assoc {A B C} (m : Script A) (f : A -> Script B) (g : B -> Script C) st :
  bind (bind m f) g st = bind m (fun a => bind (f a) g) st.
Proof.
  unfold bind. destruct (m st) as [[st1 tr1] [e | a]]; [reflexivity |].
  destruct (f a st1) as [[st2 tr2] [e | b]]; [reflexivity |].
  destruct (g b st2) as [[st3 tr3] r]. now rewrite app_assoc.
Qed.

Lemma bind_ret_r (m : Script unit) st : bind m (fun _ => ret tt) st = m st.
Proof.
  unfold bind, ret. destruct (m st) as [[st1 tr1] [e | []]]; [reflexivity |].
  now rewrite app_nil_r.
Qed.

Lemma bind_ret_l {A B} (a : A) (k : A -> Script B) st : bind (ret a) k st = k a st.
Proof. unfold bind, ret. now destruct (k a st) as [[st2 tr2] r]. Qed.

(** *** Each block is [perform] of the decoded value *)

Ltac split_value cmd :=
  destruct cmd as [| ? | ? | ? | s | ? | ?]; try reflexivity.

Ltac split_tests :=
  repeat match goal with
         | |- context [String.eqb ?s ?lit] => destruct (String.eqb s lit); try reflexivity
         end.

Lemma block_decode (k : key) (m : gmap string jvalue) (st : state) :
  block k (JDict m) st = perform (decode k (default JNull (m !! key_name k))) st.
Proof.
  destruct k; cbn [block key_name];
    unfold blk_forward, blk_backward, blk_left, blk_right, blk_low, blk_medium,
      blk_high, blk_bz, blk_led, blk_rgb, blk_toy, blk_pulse, j_get;
    rewrite bind_ret_l;
    match goal with
    | |- context [default JNull ?o] => generalize (default JNull o)
    end; intros cmd;
    split_value cmd;
    unfold decode, decode_direction, decode_switch;
    cbn [not_None eq_str];
    split_tests.
Qed.

Lemma block_not_dict (k : key) (j : jvalue) (st : state) :
  is_dict j = false -> block k j st = (st, [], inl AttributeError).
Proof. destruct j; [| | | | | | discriminate]; intros _; now destruct k. Qed.

Lemma try_body_ordered (j : jvalue) (st : state) :
  try_body j st = dispatch_in_order key_order j st.
Proof.
  unfold try_body, key_order. cbn [dispatch_in_order block].
  repeat (apply bind_ext; intros _ ?).
  now rewrite bind_ret_r.
Qed.

(** *** Running a bind *)

Lemma bind_inr {A B} (m : Script A) (k : A -> Script B) st st1 tr1 a :
  m st = (st1, tr1, inr a) ->
  bind m k st = (final (k a st1), tr1 ++ trace (k a st1), result (k a st1)).
Proof. intros H. unfold bind. rewrite H. now destruct (k a st1) as [[? ?] ?]. Qed.

Lemma bind_inl {A B} (m : Script A) (k : A -> Script B) st st1 tr1 e :
  m st = (st1, tr1, inl e) -> bind m k st = (st1, tr1, inl e).
Proof. intros H. unfold bind. now rewrite H. Qed.

Lemma catch_trace (m : Script unit) st :
  trace (catch m print_error st)
  = trace (m st) ++ match result (m st) with inl e => [EPrint e] | inr _ => [] end.
Proof.
  unfold catch. destruct (m st) as [[st1 tr1] [e | a]]; cbn.
  - reflexivity.
  - now rewrite app_nil_r.
Qed.

Lemma catch_final (m : Script unit) st :
  final (catch m print_error st) = final (m st).
Proof. unfold catch. now destruct (m st) as [[st1 tr1] [e | a]]. Qed.

Lemma catch_result (m : Script unit) st :
  result (catch m print_error st) = inr tt.
Proof. unfold catch. now destruct (m st) as [[st1 tr1] [e | []]]. Qed.

(** *** Rules of the triple *)

Lemma triple_bind {A B} P R Q E (m : Script A) (k : A -> Script B) :
  triple P m E R -> (forall a, triple R (k a) E Q) ->
  (forall st, R st -> Q st) ->
  triple P (bind m k) E Q.
Proof.
  intros Hm Hk HRQ st HP. destruct (Hm st HP) as [Hev HR].
  unfold bind. destruct (m st) as [[st1 tr1] [e | a]]; cbn in *.
  - auto.
  - destruct (Hk a st1 HR) as [Hev2 HQ].
    destruct (k a st1) as [[st2 tr2] r]; cbn in *.
    split; [apply Forall_app; auto | assumption].
Qed.

Lemma triple_catch P Q E (m : Script unit) :
  triple P m E Q -> (forall e, E (EPrint e)) ->
  triple P (catch m print_error) E Q.
Proof.
  intros Hm Hp st HP. destruct (Hm st HP) as [Hev HQ].
  rewrite catch_trace, catch_final. split; [| assumption].
  apply Forall_app. split; [assumption |].
  destruct (result (m st)); repeat constructor. apply Hp.
Qed.

Lemma triple_weaken {A} (P P' Q Q' : state -> Prop) E (m : Script A) :
  triple P m E Q -> (forall st, P' st -> P st) -> (forall st, Q st -> Q' st) ->
  triple P' m E Q'.
Proof. intros H HP HQ st Hst. destruct (H st (HP st Hst)). auto. Qed.

Lemma triple_ret {A} (P : state -> Prop) E (a : A) : triple P (ret a) E P.
Proof. intros st HP. split; [constructor | exact HP]. Qed.

Lemma triple_block P E (k : key) (j : jvalue) :
  (forall a, triple P (perform a) E P) -> triple P (block k j) E P.
Proof.
  intros H st HP. destruct (is_dict j) eqn:Hd.
  - destruct j; try discriminate. rewrite block_decode. now apply H.
  - rewrite block_not_dict by assumption. split; [constructor | exact HP].
Qed.

Lemma triple_dispatch P E (ks : list key) (j : jvalue) :
  (forall k, In k ks -> triple P (block k j) E P) ->
  triple P (dispatch_in_order ks j) E P.
Proof.
  induction ks as [| k ks IH]; intros H; cbn [dispatch_in_order].
  - apply triple_ret.
  - apply triple_bind with (R := P); [apply H; now left | | auto].
    intros _. apply IH. intros k' Hk'. apply H. now right.
Qed.

Lemma triple_try_body P E (j : jvalue) :
  (forall a, triple P (perform a) E P) -> triple P (try_body j) E P.
Proof.
  intros H st HP. rewrite try_body_ordered.
  apply (triple_dispatch P E key_order j); [| exact HP].
  intros k _. now apply triple_block.
Qed.

Lemma triple_process P E (j : jvalue) :
  (forall a, triple P (perform a) E P) -> (forall e, E (EPrint e)) ->
  triple P (process j) E P.
Proof. intros H Hp. apply triple_catch; [now apply triple_try_body | exact Hp]. Qed.

Lemma triple_on_frame P E (s : string) :
  (forall a, triple P (perform a) E P) -> (forall e, E (EPrint e)) ->
  triple P (on_frame s) E P.
Proof.
  intros H Hp. apply triple_catch; [| exact Hp].
  apply triple_bind with (R := P); [| | auto].
  - intros st HP. unfold lift. split; [constructor | exact HP].
  - intros j. now apply triple_try_body.
Qed.

(** Unfolds the collaborator calls down to triples of state, events and
    result. *)
Ltac unfold_calls :=
  unfold press_button, release_button, uart_write, M_forward, M_backward,
    M_left, M_right, M_stop, BUZ_value, led_value, k2_init, k2_value,
    strip_pixels_show, strip_pixels_set, utime_sleep, print_error, get_speed,
    assign_speed, py_tuple, lift, emit, raise, ret, bind in *.

(** Case analysis on an action, down to the outcome of its RGB value. *)
Ltac action_cases a :=
  destruct a as [| [] | | [] | [] | [] | [| ? | ? | ? | text | ? | ?] | [] |];
  cbn [perform]; unfold_calls;
  try match goal with
      | |- context [py_eval ?x] =>
          destruct (py_eval x) as [? | [| ? | ? | ? | ? | rgb | rgb | ? | rgb]];
          try match goal with
              | |- context [strip_accepts ?c] => destruct (strip_accepts c)
              end
      end.

(** *** Direction keys *)

(** C1. For each direction key, a frame with the key "Down" makes one
    drive call and one acknowledgement naming the direction; the next
    frame with the same key "Up" makes one stop call and the
    acknowledgement "Stop".  An "Up" frame stops the motors from every
    state, whatever was driven before. *)
Theorem press_release_cycle (d : direction) (st : state) :
  let r1 := process (frame1 (dir_name d) "Down") st in
  let r2 := process (frame1 (dir_name d) "Up") (final r1) in
  trace r1 = [EDrive d (drive_magnitude d st); EWrite (json1 "State" (dir_name d))]
  /\ trace r2 = [EStop; EWrite (json1 "State" "Stop")]
  /\ motor (final r1) = Moving d (drive_magnitude d st)
  /\ motor (final r2) = Stopped
  /\ forall (d' : direction) (st' : state),
       trace (process (frame1 (dir_name d') "Up") st')
       = [EStop; EWrite (json1 "State" "Stop")]
       /\ motor (final (process (frame1 (dir_name d') "Up") st')) = Stopped.
Proof.
  cbv zeta. repeat apply conj.
  1-4: destruct d, st; vm_compute; reflexivity.
  intros d' st'. destruct d', st'; split; vm_compute; reflexivity.
Qed.

(** *** Turns *)

Lemma perform_turns (a : action) :
  triple (fun _ => True) (perform a) turns_at_20 (fun _ => True).
Proof.
  intros st _. split; [| exact I].
  action_cases a; cbn; repeat constructor.
Qed.

(** C10. A frame with "Left" or "Right" "Down" issues the turn at
    magnitude 20 from every state, so for every value of the speed
    preset; more generally no frame whose RGB value runs no code makes a
    left or right drive call at another magnitude. *)
Theorem turn_magnitude_fixed (st : state) :
  trace (process (frame1 "Left" "Down") st)
  = [EDrive Left 20; EWrite (json1 "State" "Left")]
  /\ trace (process (frame1 "Right" "Down") st)
     = [EDrive Right 20; EWrite (json1 "State" "Right")]
  /\ forall j : jvalue,
       rgb_inert j = true -> Forall turns_at_20 (trace (process j st)).
Proof.
  repeat apply conj.
  1-2: destruct st; vm_compute; reflexivity.
  intros j _.
  apply (triple_process (fun _ => True) turns_at_20 j perform_turns);
    [intros e |]; exact I.
Qed.

(** *** The toy button *)

(** C6. The frame with "ToyGPIO15Pulse" set to "pulse" writes five
    messages, in order: start of sequence, release, press, release,
    completion; it ends with the relay released, from every state.
    In any frame that carries the key with that value, the pulse block,
    which is the last block of the dispatcher, ends with the relay
    released. *)
Theorem pulse_sequence (st : state) :
  let r := process (frame1 "ToyGPIO15Pulse" "pulse") st in
  writes (trace r)
  = [json1 "State" "[SETUP] Starting toy pulse sequence";
     json1 "State" "[INFO] Releasing button (disconnecting K2)";
     json1 "State" "[INFO] Simulating button press (connecting K2 to GND)";
     json1 "State" "[INFO] Releasing button (disconnecting K2)";
     json1 "State" "[DONE] Cycle complete"]
  /\ relay_released (final r) = true
  /\ relay_pressed (final r) = false
  /\ result r = inr tt
  /\ forall m : gmap string jvalue,
       relay_released
         (final (blk_pulse (JDict (<["ToyGPIO15Pulse" := JStr "pulse"]> m)) st))
       = true.
Proof.
  cbv zeta. repeat apply conj.
  1-4: destruct st; vm_compute; reflexivity.
  intros m. change blk_pulse with (block KToyGPIO15Pulse).
  rewrite block_decode. cbn [key_name]. rewrite lookup_insert_eq.
  reflexivity.
Qed.

(** *** Battery percentage *)

Lemma clamp_range (p : Q) : (0 <= clamp p <= 100)%Q.
Proof.
  unfold clamp, Qlt_bool.
  destruct (Qle_bool 0 p) eqn:H0; cbn [negb].
  - apply Qle_bool_iff in H0.
    destruct (Qle_bool p 100) eqn:H1; cbn [negb].
    + apply Qle_bool_iff in H1. now split.
    + split; [discriminate | apply Qle_refl].
  - change (Qle_bool 0 100) with true. cbn [negb].
    split; [apply Qle_refl | discriminate].
Qed.

(** C5. For every raw battery reading, the percentage computed by the
    telemetry check lies between 0 and 100; the two tests of lines
    178-179 bring any value into that range, whatever the voltage it was
    derived from. *)
Theorem battery_percent_clamped (raw : Z) :
  (0 <= percent_of raw <= 100)%Q /\ forall p : Q, (0 <= clamp p <= 100)%Q.
Proof. split; [unfold percent_of |]; auto using clamp_range. Qed.

(** *** The light strip *)

(** C3, as the code has it. With [eval] giving the tuple for a tuple
    literal and the pixel driver taking that colour, the frame with
    "RGB" set to "(255,0,0)" sets the four pixels to (255, 0, 0),
    renders once, and writes one acknowledgement; its text is the value
    text wrapped in a further pair of parentheses,
    [{"State":"RGB:((255,0,0))"}]. *)
Theorem rgb_sets_strip (st : state) :
  (forall s v, literal_eval s = Some v -> py_eval s = inr v) ->
  strip_accepts [PInt 255; PInt 0; PInt 0] = true ->
  length (strip st) = 4%nat ->
  let c := [PInt 255; PInt 0; PInt 0] in
  let r := process (frame1 "RGB" "(255,0,0)") st in
  trace r = [EPixelsSet 0 c; EPixelsSet 1 c; EPixelsSet 2 c; EPixelsSet 3 c;
             EPixelsShow; EWrite (json1 "State" "RGB:((255,0,0))")]
  /\ strip (final r) = replicate 4 c
  /\ shown (final r) = replicate 4 c
  /\ result r = inr tt.
Proof.
  intros Hev Hacc Hlen. cbv zeta.
  specialize (Hev "(255,0,0)" _ eq_refl).
  destruct st as [sp tm mo bz ld km kl px sh]; cbn in Hlen.
  destruct px as [| p0 [| p1 [| p2 [| p3 [|]]]]]; try discriminate.
  unfold final, trace, result.
  vm_compute. vm_compute in Hev, Hacc. rewrite Hev. vm_compute. rewrite Hacc.
  repeat split.
Qed.

(** *** Speed presets *)

Lemma dispatch_app (ks1 ks2 : list key) (j : jvalue) (st : state) :
  dispatch_in_order (ks1 ++ ks2) j st
  = (dispatch_in_order ks1 j >> dispatch_in_order ks2 j) st.
Proof.
  revert st. induction ks1 as [| k ks1 IH]; intros st; cbn [dispatch_in_order app].
  - now rewrite bind_ret_l.
  - rewrite bind_assoc. apply bind_ext. intros _ st'. apply IH.
Qed.

Lemma triple_block_action P E (k : key) (j : jvalue) :
  triple P (perform (action_of j k)) E P -> triple P (block k j) E P.
Proof.
  intros H st HP. destruct (is_dict j) eqn:Hd.
  - destruct j; try discriminate. rewrite block_decode. now apply H.
  - rewrite block_not_dict by assumption. split; [constructor | exact HP].
Qed.

Lemma no_select (j : jvalue) (k : key) :
  selects_speed j = false -> writes_speed (action_of j k) = false.
Proof.
  unfold selects_speed, action_of. intros H.
  apply orb_false_elim in H as [H H3]. apply orb_false_elim in H as [H1 H2].
  destruct k; cbn [key_name decode]; unfold decode_direction, decode_switch;
    rewrite ?H1, ?H2, ?H3;
    repeat match goal with
           | |- context [eq_str ?c ?l] => destruct (eq_str c l)
           | |- context [not_None ?c] => destruct (not_None c)
           end; reflexivity.
Qed.

Lemma direction_key_no_select (j : jvalue) (k : key) :
  In k [KForward; KBackward; KLeft; KRight] ->
  writes_speed (action_of j k) = false.
Proof.
  unfold action_of. intros [<- | [<- | [<- | [<- | []]]]];
    cbn [key_name decode]; unfold decode_direction;
    repeat match goal with
           | |- context [eq_str ?c ?l] => destruct (eq_str c l)
           end; reflexivity.
Qed.

Lemma later_key_no_drive (j : jvalue) (k : key) :
  In k [KLeft; KRight; KLow; KMedium; KHigh; KBZ; KLED; KRGB;
        KToyGPIO15; KToyGPIO15Pulse] ->
  reads_speed (action_of j k) = false.
Proof.
  unfold action_of. intros H.
  repeat (destruct H as [<- | H]; [
    cbn [key_name decode]; unfold decode_direction, decode_switch;
    repeat match goal with
           | |- context [eq_str ?c ?l] => destruct (eq_str c l)
           | |- context [not_None ?c] => destruct (not_None c)
           end; reflexivity |]).
  destruct H.
Qed.

Lemma perform_keeps_speed (a : action) (v : Z) :
  writes_speed a = false ->
  triple (fun st => speed st = v) (perform a) (drives_at v)
         (fun st => speed st = v).
Proof.
  intros Hw st Hv.
  action_cases a; try discriminate; cbn; split; try assumption;
    repeat constructor; assumption.
Qed.

Lemma perform_no_drive (a : action) (v : Z) :
  reads_speed a = false ->
  triple (fun _ => True) (perform a) (drives_at v) (fun _ => True).
Proof.
  intros Hr st _. split; [| exact I].
  action_cases a; try discriminate; cbn; repeat constructor.
Qed.

Lemma process_keeps_speed (j : jvalue) (st : state) :
  selects_speed j = false -> speed (final (process j st)) = speed st.
Proof.
  intros H. unfold process. rewrite catch_final, try_body_ordered.
  apply (triple_dispatch (fun s => speed s = speed st) (drives_at (speed st))
           key_order j); [| reflexivity].
  intros k _. apply triple_block_action, perform_keeps_speed.
  now apply no_select.
Qed.

Lemma process_all_keeps_speed (js : list jvalue) (st : state) :
  Forall (fun j => selects_speed j = false) js ->
  speed (final (process_all js st)) = speed st.
Proof.
  intros H. revert st. induction H as [| j js Hj _ IH]; intros st.
  - reflexivity.
  - cbn [process_all]. unfold bind.
    pose proof (process_keeps_speed j st Hj) as Hs.
    pose proof (catch_result (try_body j) st) as Hr.
    fold (process j) in Hr.
    destruct (process j st) as [[st1 tr1] [e | []]]; [discriminate |].
    specialize (IH st1). cbn in Hs.
    destruct (process_all js st1) as [[st2 tr2] r]. cbn in *. congruence.
Qed.

Lemma forward_block_runs (m : gmap string jvalue) (st : state) :
  exists st1 tr1,
    blk_forward (JDict m) st = (st1, tr1, inr tt) /\ speed st1 = speed st.
Proof.
  change blk_forward with (block KForward). rewrite block_decode.
  cbn [decode]. unfold decode_direction.
  destruct (eq_str _ "Down"); [| destruct (eq_str _ "Up")];
    cbn [perform]; unfold_calls; cbn; eauto.
Qed.

Lemma drives_with_speed (j : jvalue) (st : state) :
  drives_with (speed st) j st.
Proof.
  unfold drives_with. repeat apply conj.
  - set (first2 := [KForward; KBackward]).
    set (others := [KLeft; KRight; KLow; KMedium; KHigh; KBZ; KLED; KRGB;
                    KToyGPIO15; KToyGPIO15Pulse]).
    assert (T : triple (fun s => speed s = speed st)
                  (dispatch_in_order first2 j >> dispatch_in_order others j)
                  (drives_at (speed st)) (fun _ => True)).
    { apply triple_bind with (R := fun s => speed s = speed st); [| | auto].
      - apply triple_dispatch. intros k Hk.
        apply triple_block_action, perform_keeps_speed, direction_key_no_select.
        cbn in *. tauto.
      - intros _.
        apply triple_weaken with (P := fun _ => True) (Q := fun _ => True); auto.
        apply triple_dispatch. intros k Hk.
        now apply triple_block_action, perform_no_drive, later_key_no_drive. }
    unfold process. rewrite catch_trace. apply Forall_app. split.
    + rewrite try_body_ordered. change key_order with (first2 ++ others).
      rewrite dispatch_app. now apply T.
    + destruct (result _); repeat constructor.
  - destruct j; try discriminate. cbn [lookup_key]. intros Hf.
    unfold process. rewrite catch_trace. apply in_or_app. left.
    unfold try_body.
    assert (Hb : blk_forward (JDict m) st
                 = (set_motor (Moving Forward (speed st)) st,
                    [EDrive Forward (speed st); EWrite (json1 "State" "Forward")],
                    inr tt)).
    { change blk_forward with (block KForward). rewrite block_decode.
      cbn [key_name]. now rewrite Hf. }
    rewrite (bind_inr _ _ _ _ _ _ Hb). cbn. now left.
  - destruct j; try discriminate. cbn [lookup_key]. intros Hf.
    unfold process. rewrite catch_trace. apply in_or_app. left.
    unfold try_body.
    destruct (forward_block_runs m st) as (st1 & tr1 & H1 & Hs).
    rewrite (bind_inr _ _ _ _ _ _ H1). cbn [trace fst snd].
    apply in_or_app. right.
    assert (Hb : blk_backward (JDict m) st1
                 = (set_motor (Moving Backward (speed st)) st1,
                    [EDrive Backward (speed st); EWrite (json1 "State" "Backward")],
                    inr tt)).
    { change blk_backward with (block KBackward). rewrite block_decode.
      cbn [key_name]. rewrite Hf, <- Hs. reflexivity. }
    rewrite (bind_inr _ _ _ _ _ _ Hb). cbn. now left.
Qed.

(** C2. A frame with "Low" (resp. "Medium", "High") "Down" writes its
    acknowledgement and makes no motor call, so a drive in progress
    goes on unchanged.  After it, and after any further frames that
    select no preset, every frame drives forward and backward at 30
    (resp. 50, 80) only, and does drive at that speed when it carries
    "Forward" or "Backward" "Down".  From the start-up state, before
    any preset is selected, the speed is 50.  The frames are those whose
    RGB value runs no code. *)
Theorem preset_governs_drive (p : preset) (js : list jvalue) (j : jvalue)
        (st : state) :
  Forall (fun j' => selects_speed j' = false /\ rgb_inert j' = true) js ->
  rgb_inert j = true ->
  let r0 := process (frame1 (preset_name p) "Down") st in
  (preset_speed Low, preset_speed Medium, preset_speed High) = (30, 50, 80)
  /\ trace r0 = [EWrite (json1 "State" (preset_name p))]
  /\ motor (final r0) = motor st
  /\ drives_with (preset_speed p) j (final (process_all js (final r0)))
  /\ drives_with 50 j (final (process_all js startup)).
Proof.
  intros Hjs' _. cbv zeta.
  assert (Hjs : Forall (fun j' => selects_speed j' = false) js)
    by (eapply Forall_impl; [exact Hjs' | intros j' [H _]; exact H]).
  split; [| split; [| split; [| split]]].
  - reflexivity.
  - destruct p, st; vm_compute; reflexivity.
  - destruct p, st; vm_compute; reflexivity.
  - replace (preset_speed p)
      with (speed (final (process_all js
              (final (process (frame1 (preset_name p) "Down") st))))).
    + apply drives_with_speed.
    + rewrite process_all_keeps_speed by assumption.
      destruct p, st; vm_compute; reflexivity.
  - replace 50 with (speed (final (process_all js startup))).
    + apply drives_with_speed.
    + now rewrite process_all_keeps_speed.
Qed.

(** *** Frames that fail *)

Lemma try_body_not_dict (j : jvalue) (st : state) :
  is_dict j = false -> try_body j st = (st, [], inl AttributeError).
Proof.
  intros H. unfold try_body. apply bind_inl.
  change blk_forward with (block KForward). now apply block_not_dict.
Qed.

Lemma status_update_idle (tk : tick) (st : state) :
  status_update (idle_tick tk) st = status_update tk st.
Proof. reflexivity. Qed.

Lemma status_update_result (tk : tick) (st : state) :
  result (status_update tk st) = inr tt.
Proof. unfold status_update. now destruct (3000 <? _). Qed.

Lemma iteration_idle (tk : tick) (st : state) :
  iteration (idle_tick tk) st = status_update tk st.
Proof. unfold iteration. cbn [rx idle_tick]. now rewrite bind_ret_l. Qed.

(** C8. When the bytes read do not decode, or decode to something that
    is not an object, the frame produces only the console report of
    the exception: nothing is written to the UART, no collaborator is
    called and the state is unchanged.  The pass returns normally and,
    the report apart, that pass and all the following ones are those of
    a loop that read nothing. *)
Theorem bad_frame_is_dropped (tk : tick) (s : string) (rest : list tick)
        (st : state) :
  rx tk = Some s -> undecodable s = true ->
  exists e : exn,
    on_frame s st = (st, [EPrint e], inr tt)
    /\ iteration tk st
       = (final (iteration (idle_tick tk) st),
          EPrint e :: trace (iteration (idle_tick tk) st), inr tt)
    /\ final (run (tk :: rest) st) = final (run (idle_tick tk :: rest) st)
    /\ trace (run (tk :: rest) st)
       = EPrint e :: trace (run (idle_tick tk :: rest) st)
    /\ result (run (tk :: rest) st) = result (run (idle_tick tk :: rest) st).
Proof.
  intros Hrx Hbad.
  assert (Hf : exists e, on_frame s st = (st, [EPrint e], inr tt)).
  { unfold undecodable in Hbad. unfold on_frame, try_block, catch, bind, lift.
    destruct (ujson_loads s) as [e | j]; [now exists e |].
    exists AttributeError. rewrite try_body_not_dict; [reflexivity |].
    now destruct j. }
  destruct Hf as [e Hf]. exists e.
  assert (Hi : iteration tk st
               = (final (status_update tk st),
                  EPrint e :: trace (status_update tk st), inr tt)).
  { unfold iteration. rewrite Hrx, (bind_inr _ _ _ _ _ _ Hf).
    now rewrite status_update_result. }
  split; [exact Hf |]. split; [now rewrite iteration_idle |].
  cbn [run]. rewrite (bind_inr _ _ _ _ _ _ Hi).
  pose proof (status_update_result tk st) as Hr.
  rewrite <- iteration_idle in Hr |- *.
  destruct (iteration (idle_tick tk) st) as [[st1 tr1] [e1 | []]] eqn:Hidle;
    [discriminate |].
  rewrite (bind_inr _ _ _ _ _ _ Hidle). cbn. auto.
Qed.


Lemma block_no_raise (k : key) (m : gmap string jvalue) (st : state) :
  k <> KRGB -> result (block k (JDict m) st) = inr tt.
Proof.
  intros Hk. rewrite block_decode.
  destruct k; try congruence; cbn [decode];
    unfold decode_direction, decode_switch;
    repeat match goal with
           | |- context [eq_str ?c ?l] => destruct (eq_str c l)
           end; reflexivity.
Qed.

Lemma dispatch_no_raise (ks : list key) (m : gmap string jvalue) (st : state) :
  ~ In KRGB ks -> result (dispatch_in_order ks (JDict m) st) = inr tt.
Proof.
  revert st. induction ks as [| k ks IH]; intros st Hk; [reflexivity |].
  cbn [dispatch_in_order].
  assert (Hb := block_no_raise k m st).
  destruct (block k (JDict m) st) as [[st1 tr1] [e | []]] eqn:Hblk.
  - cbn in Hb. discriminate Hb. intros ->. apply Hk. now left.
  - rewrite (bind_inr _ _ _ _ _ _ Hblk). cbn. apply IH.
    intros H. apply Hk. now right.
Qed.


Lemma perform_keeps_t (a : action) (c : Z) :
  triple (fun st => t st = c) (perform a) (fun e => is_status e = false)
         (fun st => t st = c).
Proof.
  intros st Hc.
  action_cases a; cbn; split; try assumption; repeat constructor.
Qed.






(** *** Telemetry *)

Lemma status_count_app (tr1 tr2 : list event) :
  status_count (tr1 ++ tr2) = (status_count tr1 + status_count tr2)%nat.
Proof.
  induction tr1 as [| e tr1 IH]; cbn [status_count app]; [reflexivity |].
  rewrite IH. lia.
Qed.

Lemma status_count_quiet (tr : list event) :
  Forall (fun e => is_status e = false) tr -> status_count tr = 0%nat.
Proof.
  induction 1 as [| e tr He _ IH]; cbn [status_count]; [reflexivity |].
  now rewrite He, IH.
Qed.

(** Reading a frame neither moves [t] nor writes a status line. *)
Lemma frame_part_quiet (tk : tick) (st : state) :
  exists st1 tr1,
    (match rx tk with Some s => on_frame s | None => ret tt end) st
    = (st1, tr1, inr tt)
    /\ t st1 = t st /\ status_count tr1 = 0%nat.
Proof.
  destruct (rx tk) as [s |].
  - pose proof (triple_on_frame (fun s => t s = t st)
                  (fun e => is_status e = false) s
                  (fun a => perform_keeps_t a (t st))
                  (fun _ => eq_refl) st eq_refl) as [Hq Ht].
    pose proof (catch_result (try_block s) st) as Hr.
    fold (on_frame s) in Hr.
    destruct (on_frame s st) as [[st1 tr1] [e | []]]; [discriminate |].
    exists st1, tr1. cbn in *. auto using status_count_quiet.
  - exists st, []. auto.
Qed.

Lemma iteration_status (tk : tick) (st : state) :
  status_count (trace (iteration tk st))
  = (if 3000 <? now_check tk - t st then 1%nat else 0%nat)
  /\ t (final (iteration tk st))
     = (if 3000 <? now_check tk - t st then now_stamp tk else t st)
  /\ result (iteration tk st) = inr tt.
Proof.
  destruct (frame_part_quiet tk st) as (st1 & tr1 & H1 & Ht & Hq).
  unfold iteration. rewrite (bind_inr _ _ _ _ _ _ H1).
  unfold status_update. rewrite Ht.
  destruct (3000 <? _); cbn; rewrite status_count_app, Hq; auto.
Qed.

(** No pass emits while the clock stays within 3000 ms of [t]. *)
Lemma run_quiet (tks : list tick) (st : state) :
  Forall (fun tk => now_check tk <= t st + 3000) tks ->
  status_count (trace (run tks st)) = 0%nat.
Proof.
  intros H. revert st H.
  induction tks as [| tk tks IH]; intros st H; [reflexivity |].
  inversion H as [| ? ? Htk Hrest]; subst. cbn [run].
  destruct (iteration_status tk st) as (Hc & Ht & Hr).
  destruct (iteration tk st) as [[st1 tr1] [e | []]] eqn:Hi; [discriminate |].
  rewrite (bind_inr _ _ _ _ _ _ Hi). cbn in *.
  assert (Hlt : (3000 <? now_check tk - t st) = false) by (apply Z.ltb_ge; lia).
  rewrite Hlt in Hc, Ht. rewrite status_count_app, Hc, IH; [reflexivity |].
  now rewrite Ht.
Qed.

(** C4, as the code has it. Over passes whose clock readings all lie
    within one span of 3000 ms, at most one telemetry message is
    written, however many passes there are.  A pass writes exactly one
    telemetry message when its clock reading is more than 3000 ms after
    [t], the time stamp of the last sample, and none otherwise; the
    sample moves [t] to the clock value read next.  The passes are those
    that read nothing or a frame whose RGB value runs no code. *)
Theorem telemetry_rate (tks : list tick) (a : Z) (st : state) :
  Forall (fun tk => a <= now_check tk <= a + 3000
                    /\ a <= now_stamp tk <= a + 3000
                    /\ inert_tick tk = true) tks ->
  (status_count (trace (run tks st)) <= 1)%nat
  /\ forall (tk : tick) (st' : state),
       inert_tick tk = true ->
       status_count (trace (iteration tk st'))
       = (if 3000 <? now_check tk - t st' then 1%nat else 0%nat)
       /\ t (final (iteration tk st'))
          = (if 3000 <? now_check tk - t st' then now_stamp tk else t st').
Proof.
  intros H. split; [| intros tk st' _; split; apply iteration_status].
  revert st. induction H as [| tk tks Htk Hrest IH]; intros st.
  - cbn. lia.
  - cbn [run].
    destruct (iteration_status tk st) as (Hc & Ht & Hr).
    destruct (iteration tk st) as [[st1 tr1] [e | []]] eqn:Hi; [discriminate |].
    rewrite (bind_inr _ _ _ _ _ _ Hi). cbn in *. rewrite status_count_app, Hc.
    destruct (3000 <? now_check tk - t st).
    + rewrite run_quiet; [lia |].
      rewrite Ht. eapply Forall_impl; [exact Hrest |].
      cbn. intros tk' ?. lia.
    + specialize (IH st1). lia.
Qed.

(** *** Processing order of the keys *)

Lemma same_outcome_refl {A} (r : state * list event * (exn + A)) :
  same_outcome r r.
Proof. repeat split; reflexivity. Qed.

Lemma same_outcome_trans {A} (r1 r2 r3 : state * list event * (exn + A)) :
  same_outcome r1 r2 -> same_outcome r2 r3 -> same_outcome r1 r3.
Proof.
  intros (F1 & T1 & R1) (F2 & T2 & R2).
  repeat split; [congruence | eapply Permutation_trans; eassumption | congruence].
Qed.

Lemma same_outcome_bind {A} (m : Script A) (k k' : A -> Script unit) (st : state) :
  (forall a st', same_outcome (k a st') (k' a st')) ->
  same_outcome (bind m k st) (bind m k' st).
Proof.
  intros H. unfold bind. destruct (m st) as [[st1 tr1] [e | a]].
  - apply same_outcome_refl.
  - destruct (H a st1) as (F & T & R).
    destruct (k a st1) as [[s2 t2] r2], (k' a st1) as [[s3 t3] r3]; cbn in *.
    repeat split; cbn; [assumption | now apply Permutation_app_head | assumption].
Qed.

(** Two independent actions that do not raise commute: the same state
    is reached, and each contributes the events it produces alone. *)
Lemma perform_commute (a b : action) (st : state) :
  independent a b = true -> colour_ok a = true -> colour_ok b = true ->
  exists s : state,
    (perform a >> perform b) st
    = (s, trace (perform a st) ++ trace (perform b st), inr tt)
    /\ (perform b >> perform a) st
       = (s, trace (perform b st) ++ trace (perform a st), inr tt).
Proof.
  intros Hind Ha Hb. destruct st as [sp tm mo bz ld km kl px sh].
  destruct a as [| [] | | [] | [] | [] | [| ? | ? | ? | ta | ? | ?] | [] |];
    try discriminate Ha;
    destruct b as [| [] | | [] | [] | [] | [| ? | ? | ? | tb | ? | ?] | [] |];
    try discriminate Hb; try discriminate Hind;
    cbn [colour_ok] in Ha, Hb; cbn [perform]; unfold_calls;
    try (destruct (py_eval ta) as [? | [| ? | ? | ? | ? | ? | ? | ? | ?]];
         try discriminate Ha; rewrite ?Ha);
    try (destruct (py_eval tb) as [? | [| ? | ? | ? | ? | ? | ? | ? | ?]];
         try discriminate Hb; rewrite ?Hb);
    eexists; split; reflexivity.
Qed.

Lemma all_keys (k : key) : In k key_order.
Proof. destruct k; cbn; tauto. Qed.

Lemma key_eqb_eq (k1 k2 : key) : key_eqb k1 k2 = true -> k1 = k2.
Proof. destruct k1, k2; vm_compute; congruence. Qed.

Lemma colour_ok_key (j : jvalue) (k : key) :
  colour_ok (action_of j KRGB) = true -> colour_ok (action_of j k) = true.
Proof.
  destruct k; try (intros H; exact H); intros _;
    unfold action_of; cbn [decode]; unfold decode_direction, decode_switch;
    repeat match goal with
           | |- context [eq_str ?c ?l] => destruct (eq_str c l)
           end; reflexivity.
Qed.

Lemma order_free_pairs (j : jvalue) :
  order_free j = true ->
  is_dict j = true
  /\ (forall k, colour_ok (action_of j k) = true)
  /\ (forall k1 k2, k1 <> k2 ->
        independent (action_of j k1) (action_of j k2) = true).
Proof.
  unfold order_free. intros H. apply andb_prop in H as [H _].
  apply andb_prop in H as [H Hpairs]. apply andb_prop in H as [Hd Hc].
  split; [assumption |]. split; [intros k; now apply colour_ok_key |].
  intros k1 k2 Hne.
  rewrite forallb_forall in Hpairs. specialize (Hpairs k1 (all_keys k1)).
  rewrite forallb_forall in Hpairs. specialize (Hpairs k2 (all_keys k2)).
  apply orb_prop in Hpairs as [He | Hi]; [| assumption].
  now apply key_eqb_eq in He.
Qed.

Lemma key_eq_dec (k1 k2 : key) : {k1 = k2} + {k1 <> k2}.
Proof. decide equality. Qed.

Lemma block_pair (k1 k2 : key) (m : gmap string jvalue) (st : state) :
  (block k1 (JDict m) >> block k2 (JDict m)) st
  = (perform (action_of (JDict m) k1) >> perform (action_of (JDict m) k2)) st.
Proof.
  unfold bind. rewrite block_decode.
  change (decode k1 (default JNull (m !! key_name k1)))
    with (action_of (JDict m) k1).
  destruct (perform (action_of (JDict m) k1) st) as [[? ?] [? | ?]];
    [reflexivity |].
  now rewrite block_decode.
Qed.

Lemma dispatch_swap (j : jvalue) (k1 k2 : key) (ks : list key) (st : state) :
  is_dict j = true ->
  (forall k, colour_ok (action_of j k) = true) ->
  (forall k k', k <> k' -> independent (action_of j k) (action_of j k') = true) ->
  same_outcome (dispatch_in_order (k2 :: k1 :: ks) j st)
               (dispatch_in_order (k1 :: k2 :: ks) j st).
Proof.
  intros Hd Hc Hi. destruct (key_eq_dec k2 k1) as [-> | Hne].
  - apply same_outcome_refl.
  - destruct j as [| | | | | | m]; try discriminate.
    destruct (perform_commute _ _ st (Hi k2 k1 Hne) (Hc k2) (Hc k1))
      as (s & H21 & H12).
    cbn [dispatch_in_order].
    rewrite <- (bind_assoc (block k2 (JDict m)) (fun _ => block k1 (JDict m))).
    rewrite <- (bind_assoc (block k1 (JDict m)) (fun _ => block k2 (JDict m))).
    pose proof (block_pair k2 k1 m st) as E21.
    pose proof (block_pair k1 k2 m st) as E12.
    rewrite H21 in E21. rewrite H12 in E12.
    rewrite (bind_inr _ _ _ _ _ _ E21), (bind_inr _ _ _ _ _ _ E12).
    repeat split; cbn.
    apply Permutation_app_tail, Permutation_app_comm.
Qed.

Lemma dispatch_permutation (j : jvalue) (ks ks' : list key) :
  is_dict j = true ->
  (forall k, colour_ok (action_of j k) = true) ->
  (forall k k', k <> k' -> independent (action_of j k) (action_of j k') = true) ->
  Permutation ks ks' ->
  forall st, same_outcome (dispatch_in_order ks j st) (dispatch_in_order ks' j st).
Proof.
  intros Hd Hc Hi Hp.
  induction Hp as [| k l l' _ IH | k1 k2 l | l l' l'' _ IH1 _ IH2]; intros st.
  - apply same_outcome_refl.
  - cbn [dispatch_in_order]. apply same_outcome_bind. intros _ st'. apply IH.
  - now apply dispatch_swap.
  - eapply same_outcome_trans; [apply IH1 | apply IH2].
Qed.

(** C7, as the code has it. The blocks run in the fixed order of the
    source.  For a frame in which no key writes a part of the state
    (motor, speed, buzzer, LED, strip, relay) that another key of the
    frame reads or writes, and whose RGB value, if any, is an integer
    tuple literal that is accepted,
    running the twelve blocks in any other order reaches the same
    state, returns the same result and makes the same calls, up to
    their order. *)
Theorem independent_keys_commute (j : jvalue) (ks : list key) (st : state) :
  order_free j = true -> Permutation ks key_order ->
  same_outcome (dispatch_in_order ks j st) (try_body j st).
Proof.
  intros Hfree Hp. destruct (order_free_pairs j Hfree) as (Hd & Hc & Hi).
  rewrite try_body_ordered. now apply dispatch_permutation.
Qed.

(** *** Start-up *)

(** X1. When the pixel driver takes the colour black, on a strip of
    four pixels, the start-up code runs to its end and writes one
    message, the release message of the button.  It leaves the LED on, the buzzer off, the K2 pin an input,
    the four pixels black and rendered, [speed = 50] and [t = 0]; with
    the motors at rest this is the state [startup]. *)
Theorem boot_reaches_startup (st0 : state) :
  strip_accepts BLACK = true -> length (strip st0) = 4%nat ->
  let r := boot st0 in
  result r = inr tt
  /\ writes (trace r) = [json1 "State" "[INFO] Releasing button (disconnecting K2)"]
  /\ final r = mkState 50 0 (motor st0) 0 1 PinIn (k2_level st0)
                       (replicate 4 BLACK) (replicate 4 BLACK)
  /\ (motor st0 = Stopped -> k2_level st0 = 0 -> final r = startup).
Proof.
  intros Hacc Hlen. cbv zeta.
  destruct st0 as [sp tm mo bz ld km kl px sh]; cbn in Hlen.
  destruct px as [| p0 [| p1 [| p2 [| p3 [|]]]]]; try discriminate.
  unfold boot, strip_pixels_set. rewrite Hacc.
  repeat apply conj; try reflexivity.
  cbn. intros -> ->. reflexivity.
Qed.

(** *** Buzzer, LED and button frames *)

(** X2. A frame with "BZ" (resp. "LED") set to "on" or "off" sets the
    buzzer (resp. LED) pin to 1 or 0 and writes two messages, the echo
    under the key and the state line; nothing else in the state
    changes. *)
Theorem switch_frames (on : bool) (st : state) :
  let v := if on then "on" else "off" in
  process (frame1 "BZ" v) st
  = (set_buz (level on) st,
     [EBuz (level on); EWrite (json1 "BZ" (ON_OFF on));
      EWrite (json1 "State" ("BZ:" +:+ ON_OFF on))], inr tt)
  /\ process (frame1 "LED" v) st
     = (set_led (level on) st,
        [ELed (level on); EWrite (json1 "LED" (ON_OFF on));
         EWrite (json1 "State" ("LED:" +:+ ON_OFF on))], inr tt).
Proof. destruct on, st; split; vm_compute; reflexivity. Qed.

(** X3. A frame with "ToyGPIO15" "on" writes the press message, makes
    the K2 pin an output driven low and writes the "ON" echo, which
    leaves the relay pressed; "off" writes the release message, makes the
    pin an input and writes the "OFF" echo, which leaves it released.
    Both hold from every state, so "on" then "off" always ends
    released. *)
Theorem toy_button_frames (st : state) :
  let r_on := process (frame1 "ToyGPIO15" "on") st in
  let r_off := process (frame1 "ToyGPIO15" "off") st in
  trace r_on
  = [EWrite (json1 "State" "[INFO] Simulating button press (connecting K2 to GND)");
     EK2Init PinOut; EK2Value 0; EWrite (json1 "ToyGPIO15" "ON")]
  /\ relay_pressed (final r_on) = true
  /\ trace r_off
     = [EWrite (json1 "State" "[INFO] Releasing button (disconnecting K2)");
        EK2Init PinIn; EWrite (json1 "ToyGPIO15" "OFF")]
  /\ relay_released (final r_off) = true
  /\ relay_released
       (final (process (frame1 "ToyGPIO15" "off") (final r_on))) = true.
Proof. cbv zeta. destruct st. repeat apply conj; vm_compute; reflexivity. Qed.

(** *** RGB frames *)

(** X4. An RGB value that is neither null nor a string (a number, a
    boolean, a list, an object) makes [eval] raise [TypeError]: the frame
    changes nothing and produces only the console report. *)
Theorem rgb_not_a_string (v : jvalue) (st : state) :
  v <> JNull -> (forall s, v <> JStr s) ->
  process (JDict {[ "RGB" := v ]}) st = (st, [EPrint TypeError], inr tt).
Proof.
  intros Hnull Hstr.
  destruct v; try congruence; try (now destruct (Hstr s));
    destruct st; vm_compute; reflexivity.
Qed.

(** X5. For an RGB text that is an integer tuple literal, evaluated to
    that tuple, which the pixel driver takes, the frame sets the four
    pixels to the tuple in index order, renders once, and writes one
    acknowledgement: the text as received between "RGB:(" and ")".  No
    other part of the state changes. *)
Theorem rgb_frame_accepted (text : string) (v : pyval) (rgb : list pyval)
        (st : state) :
  literal_eval text = Some v ->
  py_eval text = inr v ->
  result (py_tuple v st) = inr rgb ->
  strip_accepts rgb = true ->
  length (strip st) = 4%nat ->
  process (frame1 "RGB" text) st
  = (set_shown (replicate 4 rgb) (set_strip (replicate 4 rgb) st),
     [EPixelsSet 0 rgb; EPixelsSet 1 rgb; EPixelsSet 2 rgb; EPixelsSet 3 rgb;
      EPixelsShow; EWrite (json1 "State" ("RGB:(" +:+ text +:+ ")"))],
     inr tt).
Proof.
  intros _ Hev Htup Hacc Hlen.
  destruct st as [sp tm mo bz ld km kl px sh]; cbn in Hlen.
  destruct px as [| p0 [| p1 [| p2 [| p3 [|]]]]]; try discriminate.
  assert (Hrgb : blk_rgb (frame1 "RGB" text)
                   (mkState sp tm mo bz ld km kl [p0; p1; p2; p3] sh)
                 = (mkState sp tm mo bz ld km kl (replicate 4 rgb) (replicate 4 rgb),
                    [EPixelsSet 0 rgb; EPixelsSet 1 rgb; EPixelsSet 2 rgb;
                     EPixelsSet 3 rgb; EPixelsShow;
                     EWrite (json1 "State" ("RGB:(" +:+ text +:+ ")"))],
                    inr tt)).
  { change blk_rgb with (block KRGB). unfold frame1. rewrite block_decode.
    cbn [key_name]. rewrite lookup_singleton_eq.
    cbn [default from_option id decode not_None perform].
    unfold_calls. rewrite Hev.
    destruct v; try discriminate Htup; cbn in Htup; inversion Htup; subst;
      rewrite Hacc; reflexivity. }
  unfold process, catch. rewrite try_body_ordered.
  change key_order with (keys_before_rgb ++ [KRGB; KToyGPIO15; KToyGPIO15Pulse]).
  rewrite dispatch_app.
  set (st := mkState sp tm mo bz ld km kl [p0; p1; p2; p3] sh) in *.
  rewrite (bind_inr _ _ st st [] tt) by (vm_compute; reflexivity).
  cbn [dispatch_in_order block]. rewrite (bind_inr _ _ _ _ _ _ Hrgb).
  vm_compute. reflexivity.
Qed.

(** *** Keys and values the dispatcher does not react to *)

Lemma dispatch_agree (j1 j2 : jvalue) (ks : list key) (st : state) :
  is_dict j1 = true -> is_dict j2 = true ->
  (forall k, lookup_key j1 (key_name k) = lookup_key j2 (key_name k)) ->
  dispatch_in_order ks j1 st = dispatch_in_order ks j2 st.
Proof.
  intros H1 H2 Hk.
  destruct j1 as [| | | | | | m1]; try discriminate.
  destruct j2 as [| | | | | | m2]; try discriminate.
  revert st. induction ks as [| k ks IH]; intros st; [reflexivity |].
  cbn [dispatch_in_order]. unfold bind.
  rewrite !block_decode. specialize (Hk k). cbn [lookup_key] in Hk. rewrite Hk.
  destruct (perform _ st) as [[st1 tr1] [e | []]]; [reflexivity |].
  now rewrite IH.
Qed.

Lemma decode_null (k : key) : decode k JNull = Idle.
Proof. now destruct k. Qed.

Lemma dispatch_idle (j : jvalue) (ks : list key) (st : state) :
  is_dict j = true -> (forall k, In k ks -> action_of j k = Idle) ->
  dispatch_in_order ks j st = (st, [], inr tt).
Proof.
  intros Hd. destruct j as [| | | | | | m]; try discriminate.
  induction ks as [| k ks IH]; intros Hk; [reflexivity |].
  cbn [dispatch_in_order]. unfold bind. rewrite block_decode.
  change (decode k (default JNull (m !! key_name k)))
    with (action_of (JDict m) k).
  rewrite (Hk k (or_introl eq_refl)). cbn [perform]. unfold ret.
  rewrite IH; [reflexivity |]. intros k' Hk'. apply Hk. now right.
Qed.

Lemma key_name_inj (k1 k2 : key) : key_name k1 = key_name k2 -> k1 = k2.
Proof. intros H. apply key_eqb_eq. unfold key_eqb. rewrite H. apply String.eqb_refl. Qed.

(** X6. The dispatcher looks at the twelve recognised keys only: two
    object frames that have the same values under those keys, with an
    RGB value that runs no code, are processed alike, whatever other
    keys they carry. *)
Theorem unknown_keys_ignored (m1 m2 : gmap string jvalue) (st : state) :
  (forall k, m1 !! key_name k = m2 !! key_name k) ->
  rgb_inert (JDict m1) = true ->
  process (JDict m1) st = process (JDict m2) st.
Proof.
  intros H _. unfold process, catch. rewrite !try_body_ordered.
  rewrite (dispatch_agree (JDict m1) (JDict m2)); [reflexivity | reflexivity
    | reflexivity |].
  intros k. cbn [lookup_key]. now rewrite H.
Qed.

(** X7. An object frame in which each recognised key is missing or null
    does nothing: no call, no message, no change of state, no error.
    The empty object is the first instance. *)
Theorem frame_without_commands (m : gmap string jvalue) (st : state) :
  (forall k, m !! key_name k = None \/ m !! key_name k = Some JNull) ->
  process (JDict m) st = (st, [], inr tt).
Proof.
  intros H. unfold process, catch. rewrite try_body_ordered.
  rewrite dispatch_idle; [reflexivity | reflexivity |].
  intros k _. unfold action_of. cbn [lookup_key].
  destruct (H k) as [-> | ->]; apply decode_null.
Qed.

(** X8. A value that a key does not react to is ignored without error:
    for every key but RGB, a frame that carries the key with a value
    outside the key's accepted strings (another string, a number, a
    boolean, a list, an object) does nothing. *)
Theorem unrecognised_value_ignored (k : key) (v : jvalue) (st : state) :
  k <> KRGB ->
  (forall s, v = JStr s -> ~ In s (accepted_values k)) ->
  process (JDict {[ key_name k := v ]}) st = (st, [], inr tt).
Proof.
  intros Hk Hv. unfold process, catch. rewrite try_body_ordered.
  rewrite dispatch_idle; [reflexivity | reflexivity |].
  intros k' _. unfold action_of. cbn [lookup_key].
  destruct (key_eq_dec k' k) as [-> | Hne].
  - rewrite lookup_singleton_eq. cbn [default from_option id].
    destruct v as [| ? | ? | ? | s | ? | ?]; try (now destruct k).
    specialize (Hv s eq_refl).
    destruct k; try congruence; cbn [accepted_values In] in Hv;
      cbn [decode]; unfold decode_direction, decode_switch; cbn [eq_str];
      repeat match goal with
             | |- context [String.eqb s ?l] =>
                 destruct (String.eqb_spec s l); [subst s; exfalso; tauto |]
             end; reflexivity.
  - rewrite lookup_singleton_ne; [apply decode_null |].
    intros E. apply key_name_inj in E. congruence.
Qed.

(** *** A frame with several keys and the frames with one key each *)

Lemma only_key_is_dict (m : gmap string jvalue) (k : key) :
  is_dict (only_key m k) = true.
Proof. unfold only_key. now destruct (m !! key_name k). Qed.

Lemma only_key_lookup (m : gmap string jvalue) (k k' : key) :
  lookup_key (only_key m k) (key_name k')
  = if key_eq_dec k' k then lookup_key (JDict m) (key_name k) else JNull.
Proof.
  unfold only_key. cbn [lookup_key].
  destruct (key_eq_dec k' k) as [-> | Hne].
  - destruct (m !! key_name k); cbn [lookup_key];
      [now rewrite lookup_singleton_eq | now rewrite lookup_empty].
  - destruct (m !! key_name k); cbn [lookup_key]; [| now rewrite lookup_empty].
    rewrite lookup_singleton_ne; [reflexivity |].
    intros E. apply key_name_inj in E. congruence.
Qed.

(** When only the key [k] of a frame has an effect, the blocks of a list
    without repetition amount to the block of [k], if it is listed. *)
Lemma dispatch_one (j : jvalue) (k : key) (ks : list key) (st : state) :
  is_dict j = true ->
  (forall k', k' <> k -> action_of j k' = Idle) ->
  NoDup ks ->
  dispatch_in_order ks j st
  = if in_dec key_eq_dec k ks then block k j st else (st, [], inr tt).
Proof.
  intros Hd Hidle Hnd. revert st.
  induction Hnd as [| k' ks Hnotin Hnd IH]; intros st; [reflexivity |].
  cbn [dispatch_in_order].
  destruct (key_eq_dec k' k) as [-> | Hne].
  - destruct (in_dec key_eq_dec k (k :: ks)) as [_ | Hn];
      [| exfalso; apply Hn; now left].
    rewrite <- (bind_ret_r (block k j) st). apply bind_ext. intros _ st'.
    rewrite dispatch_idle; [reflexivity | assumption |].
    intros k'' Hin. apply Hidle. intros ->. apply Hnotin.
    now apply list_elem_of_In.
  - assert (Hb : block k' j st = (st, [], inr tt)).
    { destruct j as [| | | | | | m]; try discriminate. rewrite block_decode.
      change (decode k' (default JNull (m !! key_name k')))
        with (action_of (JDict m) k').
      now rewrite (Hidle k' Hne). }
    rewrite (bind_inr _ _ _ _ _ _ Hb), IH. cbn [app].
    destruct (in_dec key_eq_dec k ks) as [Hin | Hn];
      destruct (in_dec key_eq_dec k (k' :: ks)) as [Hin' | Hn'].
    + now destruct (block k j st) as [[? ?] ?].
    + exfalso. apply Hn'. now right.
    + exfalso. destruct Hin' as [E | Hin']; [congruence | contradiction].
    + reflexivity.
Qed.

Lemma key_order_NoDup : NoDup key_order.
Proof.
  unfold key_order.
  repeat (constructor; [rewrite list_elem_of_In; cbn; intuition discriminate |]).
  constructor.
Qed.

Lemma try_body_only_key (m : gmap string jvalue) (k : key) (st : state) :
  try_body (only_key m k) st = block k (JDict m) st.
Proof.
  rewrite try_body_ordered.
  rewrite (dispatch_one (only_key m k) k key_order st (only_key_is_dict m k)).
  - destruct (in_dec key_eq_dec k key_order) as [_ | Hn];
      [| exfalso; apply Hn, all_keys].
    pose proof (only_key_lookup m k k) as Hl.
    destruct (key_eq_dec k k) as [_ | ?]; [| congruence].
    pose proof (only_key_is_dict m k) as Hd.
    destruct (only_key m k) as [| | | | | | m'] eqn:Ho; try discriminate.
    rewrite !block_decode. cbn [lookup_key] in Hl. now rewrite Hl.
  - intros k' Hne. unfold action_of. rewrite only_key_lookup.
    destruct (key_eq_dec k' k); [congruence | apply decode_null].
  - apply key_order_NoDup.
Qed.

(** X9. The [try] body on a frame with several keys, whose RGB value
    runs no code, does what the [try] bodies of the twelve frames with
    one key each do, run one after the other in the order of the source
    and stopping at the first exception: same state, same events, same
    result. *)
Theorem frame_as_single_key_frames (m : gmap string jvalue) (st : state) :
  rgb_inert (JDict m) = true ->
  try_body (JDict m) st = try_bodies (map (only_key m) key_order) st.
Proof.
  intros _. rewrite try_body_ordered. revert st.
  induction key_order as [| k ks IH]; intros st; [reflexivity |].
  cbn [dispatch_in_order map try_bodies]. unfold bind.
  rewrite try_body_only_key.
  destruct (block k (JDict m) st) as [[st1 tr1] [e | []]]; [reflexivity |].
  now rewrite IH.
Qed.

(** *** What a frame leaves alone *)

Lemma perform_untouched (a : action) (p : part) (st0 : state) :
  written a <> Some p ->
  triple (fun s => untouched p st0 s /\ t s = t st0) (perform a)
         (fun _ => True) (fun s => untouched p st0 s /\ t s = t st0).
Proof.
  intros Hw st [Hu Ht]. split.
  - apply Forall_forall. intros e _. exact I.
  - destruct p; action_cases a; cbn in *; try congruence; auto.
Qed.


(** *** States the loop can reach *)

Lemma perform_well_formed (a : action) :
  triple well_formed (perform a) (fun _ => True) well_formed.
Proof.
  intros st (Hs & Hm & Hb & Hl & Hk & Hp & Hsh). split.
  - apply Forall_forall. intros e _. exact I.
  - unfold well_formed.
    action_cases a; cbn in *; rewrite ?length_insert;
      repeat apply conj; auto; tauto.
Qed.

Lemma status_update_well_formed (tk : tick) :
  triple well_formed (status_update tk) (fun _ => True) well_formed.
Proof.
  intros st H. unfold status_update.
  destruct (3000 <? _); cbn; split; auto; repeat constructor.
Qed.

Lemma iteration_well_formed (tk : tick) :
  triple well_formed (iteration tk) (fun _ => True) well_formed.
Proof.
  unfold iteration.
  apply triple_bind with (R := well_formed); [| | auto].
  - destruct (rx tk) as [s |].
    + apply triple_on_frame; [apply perform_well_formed | intros e; exact I].
    + apply triple_ret.
  - intros _. apply status_update_well_formed.
Qed.

Lemma startup_well_formed : well_formed startup.
Proof. unfold well_formed, startup. cbn. intuition. Qed.

(** X11. Whatever the clock shows, and whatever is read as long as the
    RGB values run no code, every state the
    loop reaches from start-up has its speed among 30, 50 and 80, the
    motors stopped or driven at 20 (turns) or at one of the three speeds
    (forward, backward), the buzzer and LED pins at 0 or 1, the K2 output
    level at 0, and four pixels in the strip buffer and on display. *)
Theorem reachable_states_well_formed (tks : list tick) :
  Forall (fun tk => inert_tick tk = true) tks ->
  well_formed (final (run tks startup)).
Proof.
  intros _.
  assert (H : triple well_formed (run tks) (fun _ => True) well_formed).
  { induction tks as [| tk tks IH]; cbn [run].
    - apply triple_ret.
    - apply triple_bind with (R := well_formed); [| | auto].
      + apply iteration_well_formed.
      + intros _. exact IH. }
  apply H, startup_well_formed.
Qed.

(** *** Several presets in one frame *)

Lemma other_key_no_select (j : jvalue) (k : key) :
  In k [KForward; KBackward; KLeft; KRight; KBZ; KLED; KRGB;
        KToyGPIO15; KToyGPIO15Pulse] ->
  writes_speed (action_of j k) = false.
Proof.
  unfold action_of. intros H.
  repeat (destruct H as [<- | H]; [
    cbn [key_name decode]; unfold decode_direction, decode_switch;
    repeat match goal with
           | |- context [eq_str ?c ?l] => destruct (eq_str c l)
           | |- context [not_None ?c] => destruct (not_None c)
           end; reflexivity |]).
  destruct H.
Qed.

Lemma dispatch_keeps_speed (j : jvalue) (ks : list key) (st : state) :
  (forall k, In k ks -> writes_speed (action_of j k) = false) ->
  speed (final (dispatch_in_order ks j st)) = speed st.
Proof.
  intros H.
  apply (triple_dispatch (fun s => speed s = speed st) (drives_at (speed st))
           ks j); [| reflexivity].
  intros k Hk. now apply triple_block_action, perform_keeps_speed, H.
Qed.

Lemma speed_block_runs (k : key) (p : preset) (m : gmap string jvalue)
      (st : state) :
  (k = KLow /\ p = Low) \/ (k = KMedium /\ p = Medium) \/ (k = KHigh /\ p = High) ->
  block k (JDict m) st
  = if eq_str (lookup_key (JDict m) (key_name k)) "Down"
    then (set_speed (preset_speed p) st,
          [EWrite (json1 "State" (preset_name p))], inr tt)
    else (st, [], inr tt).
Proof.
  intros [[-> ->] | [[-> ->] | [-> ->]]]; rewrite block_decode;
    cbn [key_name decode lookup_key]; destruct (eq_str _ "Down"); reflexivity.
Qed.

(** X12. When a frame selects several presets at once the last block
    that fires wins: after any frame whose RGB value runs no code the
    speed is 80 if "High" is "Down", else 50 if "Medium" is "Down", else
    30 if "Low" is "Down", else unchanged; this holds also when the
    frame raises later on. *)
Theorem preset_precedence (j : jvalue) (st : state) :
  rgb_inert j = true ->
  speed (final (process j st)) = speed_after j (speed st).
Proof.
  intros _. unfold process. rewrite catch_final.
  destruct (is_dict j) eqn:Hd.
  2:{ rewrite try_body_not_dict by assumption. now destruct j. }
  destruct j as [| | | | | | m]; try discriminate.
  rewrite try_body_ordered.
  change key_order with
    ([KForward; KBackward; KLeft; KRight]
     ++ [KLow; KMedium; KHigh]
     ++ [KBZ; KLED; KRGB; KToyGPIO15; KToyGPIO15Pulse]).
  rewrite dispatch_app.
  pose proof (dispatch_no_raise [KForward; KBackward; KLeft; KRight] m st) as Hr.
  pose proof (dispatch_keeps_speed (JDict m) [KForward; KBackward; KLeft; KRight] st)
    as Hs.
  destruct (dispatch_in_order [KForward; KBackward; KLeft; KRight] (JDict m) st)
    as [[st1 tr1] [e | []]] eqn:H1.
  { cbn in Hr. discriminate Hr. cbn. intuition discriminate. }
  rewrite (bind_inr _ _ _ _ _ _ H1). cbn [final fst].
  cbn [final fst] in Hs. rewrite <- Hs.
  2:{ intros k Hk. apply other_key_no_select. cbn in *. tauto. }
  rewrite dispatch_app.
  assert (H2 : exists tr2,
             dispatch_in_order [KLow; KMedium; KHigh] (JDict m) st1
             = (set_speed (speed_after (JDict m) (speed st1)) st1, tr2, inr tt)).
  { cbn [dispatch_in_order]. unfold speed_after.
    destruct (eq_str (lookup_key (JDict m) "Low") "Down") eqn:EL;
      destruct (eq_str (lookup_key (JDict m) "Medium") "Down") eqn:EM;
      destruct (eq_str (lookup_key (JDict m) "High") "Down") eqn:EH;
      (erewrite bind_inr;
       [| rewrite (speed_block_runs KLow Low) by tauto;
          cbn [key_name]; rewrite EL; reflexivity]);
      (erewrite bind_inr;
       [| rewrite (speed_block_runs KMedium Medium) by tauto;
          cbn [key_name]; rewrite EM; reflexivity]);
      (erewrite bind_inr;
       [| rewrite (speed_block_runs KHigh High) by tauto;
          cbn [key_name]; rewrite EH; reflexivity]);
      destruct st1; cbn; eexists; reflexivity. }
  destruct H2 as [tr2 H2]. rewrite (bind_inr _ _ _ _ _ _ H2). cbn [final fst].
  rewrite dispatch_keeps_speed; [reflexivity |].
  intros k Hk. apply other_key_no_select. cbn in *. tauto.
Qed.

(** *** Telemetry and frames *)

Lemma status_events_app (tr1 tr2 : list event) :
  status_events (tr1 ++ tr2) = status_events tr1 ++ status_events tr2.
Proof. apply List.filter_app. Qed.

Lemma status_events_quiet (tr : list event) :
  status_count tr = 0%nat -> status_events tr = [].
Proof.
  induction tr as [| e tr IH]; [reflexivity |].
  cbn [status_count status_events List.filter].
  destruct (is_status e); [discriminate |]. exact IH.
Qed.

Lemma status_update_by_t (tk : tick) (s s' : state) :
  t s = t s' ->
  trace (status_update tk s) = trace (status_update tk s')
  /\ t (final (status_update tk s)) = t (final (status_update tk s'))
  /\ status_events (trace (status_update tk s)) = trace (status_update tk s)
  /\ result (status_update tk s) = inr tt.
Proof.
  intros H. unfold status_update. rewrite H.
  destruct (3000 <? _); cbn; auto.
Qed.

Lemma run_by_t (tks : list tick) (st st' : state) :
  t st = t st' ->
  status_events (trace (run tks st)) = trace (run (map idle_tick tks) st')
  /\ t (final (run tks st)) = t (final (run (map idle_tick tks) st')).
Proof.
  revert st st'. induction tks as [| tk tks IH]; intros st st' Ht.
  - cbn. auto.
  - cbn [run map].
    destruct (frame_part_quiet tk st) as (st1 & tr1 & H1 & Ht1 & Hq).
    assert (Ht' : t st1 = t st') by congruence.
    destruct (status_update_by_t tk st1 st' Ht') as (Htr & Htf & Hev & Hr).
    assert (Hi : iteration tk st
                 = (final (status_update tk st1),
                    tr1 ++ trace (status_update tk st1), inr tt)).
    { unfold iteration. rewrite (bind_inr _ _ _ _ _ _ H1). now rewrite Hr. }
    assert (Hi' : iteration (idle_tick tk) st'
                  = (final (status_update tk st'),
                     trace (status_update tk st'), inr tt)).
    { rewrite iteration_idle.
      destruct (status_update_by_t tk st' st' eq_refl) as (_ & _ & _ & Hr').
      destruct (status_update tk st') as [[? ?] ?]. cbn in *. now rewrite Hr'. }
    rewrite (bind_inr _ _ _ _ _ _ Hi), (bind_inr _ _ _ _ _ _ Hi').
    destruct (IH _ _ Htf) as [IHe IHt].
    cbn [trace final fst snd]. split; [| exact IHt].
    rewrite !status_events_app, (status_events_quiet _ Hq), Hev, Htr.
    cbn [app]. now rewrite IHe.
Qed.

(** X13. Frames whose RGB value runs no code have no influence on
    telemetry: the telemetry messages of a run, in order, and the time
    stamp it ends with are exactly those of the run that has the same
    clock and sensor readings and reads nothing from the UART. *)
Theorem telemetry_ignores_frames (tks : list tick) (st : state) :
  Forall (fun tk => inert_tick tk = true) tks ->
  status_events (trace (run tks st)) = trace (run (map idle_tick tks) st)
  /\ t (final (run tks st)) = t (final (run (map idle_tick tks) st)).
Proof. intros _. now apply run_by_t. Qed.

(** X14. The check of line 172 is a plain subtraction: as long as no
    clock reading is more than 3000 above the time stamp [t] (so also
    while the clock reads less than [t], as after it has started again
    from zero) no telemetry is written and [t] stays as it is, however
    many passes are made and whatever frames arrive whose RGB value runs
    no code. *)
Theorem telemetry_silent_until_due (tks : list tick) (st : state) :
  Forall (fun tk => now_check tk <= t st + 3000 /\ inert_tick tk = true) tks ->
  status_count (trace (run tks st)) = 0%nat
  /\ t (final (run tks st)) = t st.
Proof.
  intros H. revert st H.
  induction tks as [| tk tks IH]; intros st H; [now split |].
  inversion H as [| ? ? [Htk _] Hrest]; subst. cbn [run].
  destruct (iteration_status tk st) as (Hc & Ht & Hr).
  destruct (iteration tk st) as [[st1 tr1] [e | []]] eqn:Hi; [discriminate |].
  rewrite (bind_inr _ _ _ _ _ _ Hi). cbn in *.
  assert (Hlt : (3000 <? now_check tk - t st) = false) by (apply Z.ltb_ge; lia).
  rewrite Hlt in Hc, Ht.
  destruct (IH st1) as [IHc IHt]; [now rewrite Ht |].
  rewrite status_count_app, Hc, IHc, IHt. auto.
Qed.

(** *** Sensor conversions *)

Lemma clamp_cases (p : Q) :
  ((p < 0)%Q /\ clamp p = 0%Q)
  \/ ((0 <= p <= 100)%Q /\ clamp p = p)
  \/ ((100 < p)%Q /\ clamp p = 100%Q).
Proof.
  unfold clamp, Qlt_bool.
  destruct (Qle_bool 0 p) eqn:H0; cbn [negb].
  - apply Qle_bool_iff in H0.
    destruct (Qle_bool p 100) eqn:H1; cbn [negb].
    + apply Qle_bool_iff in H1. right. left. auto.
    + right. right. split; [| reflexivity].
      apply Qnot_le_lt. intros H. apply Qle_bool_iff in H. congruence.
  - left. split.
    + apply Qnot_le_lt. intros H. apply Qle_bool_iff in H. congruence.
    + change (Qle_bool 0 100) with true. reflexivity.
Qed.

(** Turns a comparison of two conversions into one between integers. *)
Ltac to_integers :=
  unfold percent_of, voltage_of, temperature_of, Qle, Qlt, Qeq in *;
  cbn in *; lia.

(** X15. With the constants of lines 176-179, the battery percentage is
    0 for every raw reading up to 29788 (a battery voltage of 3 V or
    less), 100 for every raw reading from 41705 on (4.2 V or more), and
    the linear value (v - 3) * 100 / 1.2 in between. *)
Theorem battery_percent_thresholds (raw : Z) :
  (percent_of raw ==
   if raw <=? 29788 then 0
   else if 41705 <=? raw then 100
        else (voltage_of raw - 3) * 100 / 1.2)%Q.
Proof.
  unfold percent_of.
  destruct (clamp_cases ((voltage_of raw - 3) * 100 / 1.2))
    as [[Hp ->] | [[[Hp Hp'] ->] | [Hp ->]]];
    destruct (Z.leb_spec raw 29788); try destruct (Z.leb_spec 41705 raw);
    to_integers.
Qed.

(** X16. The conversions are monotone in the raw readings: a higher
    battery reading never gives a lower voltage or percentage, and a
    higher temperature reading never gives a higher temperature. *)
Theorem conversions_monotone (r1 r2 : Z) :
  r1 <= r2 ->
  (voltage_of r1 <= voltage_of r2)%Q
  /\ (percent_of r1 <= percent_of r2)%Q
  /\ (temperature_of r2 <= temperature_of r1)%Q.
Proof.
  intros H. split; [to_integers |]. split; [| to_integers].
  unfold percent_of.
  destruct (clamp_cases ((voltage_of r1 - 3) * 100 / 1.2))
    as [[Hp ->] | [[[Hp Hp'] ->] | [Hp ->]]];
    destruct (clamp_cases ((voltage_of r2 - 3) * 100 / 1.2))
      as [[Hq ->] | [[[Hq Hq'] ->] | [Hq ->]]];
    to_integers.
Qed.

(** *** Several direction keys in one frame *)

Lemma bind_final_ok {A B} (m : Script A) (k : A -> Script B) (st : state) (a : A) :
  result (m st) = inr a -> final (bind m k st) = final (k a (final (m st))).
Proof.
  intros H. unfold bind. destruct (m st) as [[st1 tr1] [e | a']]; cbn in H.
  - discriminate.
  - inversion H; subst. cbn. destruct (k a st1) as [[? ?] ?]. reflexivity.
Qed.

Lemma direction_block_step (k : key) (d : direction) (m : gmap string jvalue)
      (st : state) :
  (k = KForward /\ d = Forward) \/ (k = KBackward /\ d = Backward)
  \/ (k = KLeft /\ d = Left) \/ (k = KRight /\ d = Right) ->
  motor (final (block k (JDict m) st))
  = motor_step d (lookup_key (JDict m) (key_name k)) (drive_magnitude d st)
      (motor st)
  /\ speed (final (block k (JDict m) st)) = speed st
  /\ result (block k (JDict m) st) = inr tt.
Proof.
  intros [[-> ->] | [[-> ->] | [[-> ->] | [-> ->]]]]; rewrite block_decode;
    cbn [key_name decode lookup_key]; unfold decode_direction, motor_step;
    destruct (eq_str _ "Down"); try destruct (eq_str _ "Up");
    repeat split; reflexivity.
Qed.

Lemma later_key_no_motor (j : jvalue) (k : key) :
  In k [KLow; KMedium; KHigh; KBZ; KLED; KRGB; KToyGPIO15; KToyGPIO15Pulse] ->
  written (action_of j k) <> Some MotorPart.
Proof.
  unfold action_of. intros H.
  repeat (destruct H as [<- | H]; [
    cbn [key_name decode]; unfold decode_direction, decode_switch;
    repeat match goal with
           | |- context [eq_str ?c ?l] => destruct (eq_str c l)
           | |- context [not_None ?c] => destruct (not_None c)
           end; discriminate |]).
  destruct H.
Qed.

(** X17. Direction keys held together are not combined: after any frame
    whose RGB value runs no code
    the motors are in the motion set by the last direction block that
    fired, in the order Forward, Backward, Left, Right ("Down" drives,
    at the speed the frame started with for forward and backward and at
    20 for turns; "Up" stops), and as before when none fired.  So "Up"
    on one key stops a drive asked for by an earlier key of the same
    frame. *)
Theorem direction_precedence (j : jvalue) (st : state) :
  rgb_inert j = true ->
  motor (final (process j st)) = motor_after j st.
Proof.
  intros _. unfold process. rewrite catch_final.
  destruct (is_dict j) eqn:Hd.
  2:{ rewrite try_body_not_dict by assumption. now destruct j. }
  destruct j as [| | | | | | m]; try discriminate.
  rewrite try_body_ordered.
  change key_order with
    ([KForward; KBackward; KLeft; KRight]
     ++ [KLow; KMedium; KHigh; KBZ; KLED; KRGB; KToyGPIO15; KToyGPIO15Pulse]).
  rewrite dispatch_app.
  rewrite (bind_final_ok _ _ _ tt)
    by (apply dispatch_no_raise; cbn; intuition discriminate).
  set (st4 := final (dispatch_in_order [KForward; KBackward; KLeft; KRight]
                       (JDict m) st)).
  assert (Hrest : motor (final (dispatch_in_order
                    [KLow; KMedium; KHigh; KBZ; KLED; KRGB; KToyGPIO15;
                     KToyGPIO15Pulse] (JDict m) st4)) = motor st4).
  { apply (triple_dispatch (fun s => untouched MotorPart st4 s /\ t s = t st4)
             (fun _ => True) _ (JDict m)); [| now split].
    intros k Hk. now apply triple_block_action, perform_untouched,
                   later_key_no_motor. }
  rewrite Hrest. subst st4. cbn [dispatch_in_order].
  destruct (direction_block_step KForward Forward m st) as (M1 & S1 & R1);
    [tauto |].
  rewrite (bind_final_ok _ _ _ tt R1).
  set (st1 := final (block KForward (JDict m) st)) in *.
  destruct (direction_block_step KBackward Backward m st1) as (M2 & S2 & R2);
    [tauto |].
  rewrite (bind_final_ok _ _ _ tt R2).
  set (st2 := final (block KBackward (JDict m) st1)) in *.
  destruct (direction_block_step KLeft Left m st2) as (M3 & S3 & R3); [tauto |].
  rewrite (bind_final_ok _ _ _ tt R3).
  set (st3 := final (block KLeft (JDict m) st2)) in *.
  destruct (direction_block_step KRight Right m st3) as (M4 & S4 & R4); [tauto |].
  rewrite (bind_final_ok _ _ _ tt R4).
  cbn [ret final fst]. unfold motor_after.
  cbn [drive_magnitude key_name] in *.
  now rewrite M4, M3, M2, M1, S1.
Qed.

(** *** The only blocking frame *)

Lemma perform_no_sleep (a : action) :
  a <> Pulse ->
  triple (fun _ => True) (perform a) not_a_sleep (fun _ => True).
Proof.
  intros Ha st _. split; [| exact I].
  action_cases a; try congruence; cbn; repeat constructor.
Qed.

Lemma action_not_pulse (j : jvalue) (k : key) :
  eq_str (lookup_key j "ToyGPIO15Pulse") "pulse" = false ->
  action_of j k <> Pulse.
Proof.
  intros H. unfold action_of.
  destruct k; cbn [key_name decode]; unfold decode_direction, decode_switch;
    rewrite ?H;
    repeat match goal with
           | |- context [eq_str ?c ?l] => destruct (eq_str c l)
           | |- context [not_None ?c] => destruct (not_None c)
           end; discriminate.
Qed.

(** X18. The dispatcher sleeps in the pulse sequence only: a frame
    whose "ToyGPIO15Pulse" value is not "pulse", and whose RGB value
    runs no code, never calls [utime.sleep], whatever else it
    carries. *)
Theorem only_pulse_sleeps (j : jvalue) (st : state) :
  rgb_inert j = true ->
  eq_str (lookup_key j "ToyGPIO15Pulse") "pulse" = false ->
  Forall not_a_sleep (trace (process j st)).
Proof.
  intros _ H. unfold process.
  apply (triple_catch (fun _ => True) (fun _ => True) not_a_sleep);
    [| intros e; exact I | exact I].
  intros st' _. rewrite try_body_ordered.
  apply (triple_dispatch (fun _ => True) not_a_sleep key_order j); [| exact I].
  intros k _. now apply triple_block_action, perform_no_sleep, action_not_pulse.
Qed.

End Firmware.

(** ** The model on concrete frames *)

Example literal_eval_tuple :
  literal_eval "(255,0,0)" = Some (PTuple [PInt 255; PInt 0; PInt 0])
  /\ literal_eval "255,0,0" = Some (PTuple [PInt 255; PInt 0; PInt 0])
  /\ literal_eval "255" = Some (PInt 255)
  /\ literal_eval "(255,0" = None.
Proof. repeat split; reflexivity. Qed.

Example ref_loads_frames :
  ref_loads (json1 "Forward" "Down") = inr (JDict {[ "Forward" := JStr "Down" ]})
  /\ ref_loads ("{" +:+ quoted "Forward" +:+ ":") = inl ValueError
  /\ ref_loads "[]" = inr (JList []).
Proof. repeat split; vm_compute; reflexivity. Qed.

Lemma ref_eval_literals (s : string) (v : pyval) :
  literal_eval s = Some v -> ref_eval s = inr v.
Proof. intros H. unfold ref_eval. rewrite H. reflexivity. Qed.

Lemma preset_governs_drive_witness :
  let js := [frame1 "Left" "Down"; frame1 "LED" "off"] in
  Forall (fun j' => selects_speed j' = false /\ rgb_inert j' = true) js
  /\ rgb_inert (frame1 "Forward" "Down") = true
  /\ drives_with ref_eval ref_accepts 30 (frame1 "Forward" "Down")
       (final (process_all ref_eval ref_accepts js
                 (final (process ref_eval ref_accepts (frame1 "Low" "Down")
                           startup)))).
Proof.
  cbv zeta.
  assert (H : Forall (fun j' => selects_speed j' = false /\ rgb_inert j' = true)
                [frame1 "Left" "Down"; frame1 "LED" "off"])
    by (repeat constructor).
  split; [exact H |]. split; [reflexivity |].
  exact (proj1 (proj2 (proj2 (proj2
           (preset_governs_drive ref_eval ref_accepts Low _
              (frame1 "Forward" "Down") startup H eq_refl))))).
Defined.

Lemma rgb_sets_strip_witness :
  (forall s v, literal_eval s = Some v -> ref_eval s = inr v)
  /\ ref_accepts [PInt 255; PInt 0; PInt 0] = true
  /\ length (strip startup) = 4%nat
  /\ writes (trace (process ref_eval ref_accepts (frame1 "RGB" "(255,0,0)")
                      startup))
     = [json1 "State" "RGB:((255,0,0))"].
Proof.
  split; [exact ref_eval_literals |]. split; [reflexivity |].
  split; [reflexivity |].
  rewrite (proj1 (rgb_sets_strip ref_eval ref_accepts startup
                    ref_eval_literals eq_refl eq_refl)).
  reflexivity.
Defined.

Lemma bad_frame_is_dropped_witness :
  let tk := mkTick (Some truncated_frame) 0 0 0 0 in
  rx tk = Some truncated_frame
  /\ undecodable ref_loads truncated_frame = true
  /\ exists e : exn,
       on_frame ref_loads ref_eval ref_accepts truncated_frame startup
       = (startup, [EPrint e], inr tt).
Proof.
  cbv zeta. split; [reflexivity |]. split; [reflexivity |].
  destruct (bad_frame_is_dropped ref_loads ref_eval ref_accepts
              (mkTick (Some truncated_frame) 0 0 0 0) truncated_frame []
              startup eq_refl eq_refl) as (e & H & _).
  exists e. exact H.
Defined.


Lemma telemetry_rate_witness :
  let tks := [mkTick None 1000 1000 0 0;
              mkTick (Some (json1 "RGB" "255,0,0")) 3500 3501 0 0;
              mkTick None 4000 4000 0 0] in
  Forall (fun tk => 1000 <= now_check tk <= 1000 + 3000
                    /\ 1000 <= now_stamp tk <= 1000 + 3000
                    /\ inert_tick ref_loads tk = true) tks
  /\ (status_count (trace (run ref_loads ref_eval ref_accepts tks startup))
      <= 1)%nat.
Proof.
  cbv zeta.
  assert (H : Forall (fun tk => 1000 <= now_check tk <= 1000 + 3000
                                /\ 1000 <= now_stamp tk <= 1000 + 3000
                                /\ inert_tick ref_loads tk = true)
                [mkTick None 1000 1000 0 0;
                 mkTick (Some (json1 "RGB" "255,0,0")) 3500 3501 0 0;
                 mkTick None 4000 4000 0 0])
    by (repeat constructor; cbn; try lia; reflexivity).
  split; [exact H |].
  exact (proj1 (telemetry_rate ref_loads ref_eval ref_accepts _ 1000 startup H)).
Defined.

Lemma independent_keys_commute_witness :
  order_free ref_eval ref_accepts mixed_frame = true
  /\ Permutation (rev key_order) key_order
  /\ same_outcome
       (dispatch_in_order ref_eval ref_accepts (rev key_order) mixed_frame startup)
       (try_body ref_eval ref_accepts mixed_frame startup).
Proof.
  assert (Hp : Permutation (rev key_order) key_order)
    by (apply Permutation_sym, Permutation_rev).
  split; [reflexivity |]. split; [exact Hp |].
  exact (independent_keys_commute ref_eval ref_accepts mixed_frame
           (rev key_order) startup eq_refl Hp).
Defined.

(** ** Where the code departs from the wording *)

(** C3. The acknowledgement of the frame with "RGB" set to "(255,0,0)"
    is not the plain text: the value is wrapped in a second pair of
    parentheses. *)
Lemma rgb_ack_is_wrapped : ~ rgb_ack_is_plain ref_eval ref_accepts.
Proof. intros H. specialize (H startup). vm_compute in H. discriminate H. Qed.

(** C4. A pass whose clock reading is exactly 3000 ms after the last
    sample writes no telemetry: the test of line 172 is strict. *)
Lemma no_status_at_boundary : ~ emits_at_boundary ref_loads ref_eval ref_accepts.
Proof.
  intros H. specialize (H (mkTick None 3000 3000 0 0) startup).
  vm_compute in H. specialize (H (fun c => match c with eq_refl => I end)).
  discriminate H.
Qed.

(** C7. With "Forward" and "Low" both "Down", the source order drives at
    the old speed 50; handling "Low" first drives at 30. *)
Lemma order_matters : ~ order_invariant ref_eval ref_accepts.
Proof.
  intros H.
  destruct (H (JDict (<["Low" := JStr "Down"]> {[ "Forward" := JStr "Down" ]}))
              (KLow :: [KForward; KBackward; KLeft; KRight]
                 ++ [KMedium; KHigh; KBZ; KLED; KRGB; KToyGPIO15; KToyGPIO15Pulse])
              startup eq_refl
              (Permutation_middle [KForward; KBackward; KLeft; KRight] _ KLow))
    as (Hf & _).
  vm_compute in Hf. discriminate Hf.
Qed.


(** ** The further properties on concrete inputs *)

Lemma boot_reaches_startup_witness :
  ref_accepts BLACK = true
  /\ length (strip startup) = 4%nat
  /\ final (boot ref_accepts (set_led 0 (set_speed 80 startup))) = startup.
Proof.
  split; [reflexivity |]. split; [reflexivity |].
  exact (proj2 (proj2 (proj2
           (boot_reaches_startup ref_accepts (set_led 0 (set_speed 80 startup))
              eq_refl eq_refl))) eq_refl eq_refl).
Defined.

Lemma rgb_not_a_string_witness :
  JInt 5 <> JNull
  /\ (forall s, JInt 5 <> JStr s)
  /\ process ref_eval ref_accepts (JDict {[ "RGB" := JInt 5 ]}) startup
     = (startup, [EPrint TypeError], inr tt).
Proof.
  assert (H1 : JInt 5 <> JNull) by discriminate.
  assert (H2 : forall s, JInt 5 <> JStr s) by (intros s; discriminate).
  split; [exact H1 |]. split; [exact H2 |].
  exact (rgb_not_a_string ref_eval ref_accepts (JInt 5) startup H1 H2).
Defined.

Lemma rgb_frame_accepted_witness :
  let rgb := [PInt 255; PInt 0; PInt 0] in
  literal_eval "255,0,0" = Some (PTuple rgb)
  /\ ref_eval "255,0,0" = inr (PTuple rgb)
  /\ result (py_tuple (PTuple rgb) startup) = inr rgb
  /\ ref_accepts rgb = true
  /\ length (strip startup) = 4%nat
  /\ writes (trace (process ref_eval ref_accepts (frame1 "RGB" "255,0,0") startup))
     = [json1 "State" "RGB:(255,0,0)"].
Proof.
  cbv zeta. repeat (split; [reflexivity |]).
  rewrite (rgb_frame_accepted ref_eval ref_accepts "255,0,0"
             (PTuple [PInt 255; PInt 0; PInt 0]) [PInt 255; PInt 0; PInt 0]
             startup eq_refl eq_refl eq_refl eq_refl eq_refl).
  reflexivity.
Defined.

Lemma unknown_keys_ignored_witness :
  let m1 : gmap string jvalue :=
    <["RGB" := JStr "255,0,0"]> {[ "Forward" := JStr "Down" ]} in
  let m2 : gmap string jvalue := <["Horn" := JStr "on"]> m1 in
  (forall k, m1 !! key_name k = m2 !! key_name k)
  /\ rgb_inert (JDict m1) = true
  /\ process ref_eval ref_accepts (JDict m1) startup
     = process ref_eval ref_accepts (JDict m2) startup.
Proof.
  cbv zeta.
  assert (H : forall k,
             (<["RGB" := JStr "255,0,0"]> {[ "Forward" := JStr "Down" ]}
              : gmap string jvalue) !! key_name k
             = (<["Horn" := JStr "on"]>
                  (<["RGB" := JStr "255,0,0"]> {[ "Forward" := JStr "Down" ]})
                : gmap string jvalue) !! key_name k)
    by (intros k; destruct k; reflexivity).
  split; [exact H |]. split; [reflexivity |].
  exact (unknown_keys_ignored ref_eval ref_accepts _ _ startup H eq_refl).
Defined.

Lemma frame_without_commands_witness :
  let m : gmap string jvalue := <["LED" := JNull]> {[ "Horn" := JStr "on" ]} in
  (forall k, m !! key_name k = None \/ m !! key_name k = Some JNull)
  /\ process ref_eval ref_accepts (JDict m) startup = (startup, [], inr tt).
Proof.
  cbv zeta.
  assert (H : forall k,
             (<["LED" := JNull]> {[ "Horn" := JStr "on" ]} : gmap string jvalue)
               !! key_name k = None
             \/ (<["LED" := JNull]> {[ "Horn" := JStr "on" ]} : gmap string jvalue)
                  !! key_name k = Some JNull)
    by (intros k; destruct k; (left; reflexivity) || (right; reflexivity)).
  split; [exact H |].
  exact (frame_without_commands ref_eval ref_accepts _ startup H).
Defined.

Lemma unrecognised_value_ignored_witness :
  KForward <> KRGB
  /\ (forall s, JStr "down" = JStr s -> ~ In s (accepted_values KForward))
  /\ process ref_eval ref_accepts (JDict {[ "Forward" := JStr "down" ]}) startup
     = (startup, [], inr tt).
Proof.
  assert (H1 : KForward <> KRGB) by discriminate.
  assert (H2 : forall s, JStr "down" = JStr s -> ~ In s (accepted_values KForward)).
  { intros s E. inversion E; subst. cbn. intuition discriminate. }
  split; [exact H1 |]. split; [exact H2 |].
  exact (unrecognised_value_ignored ref_eval ref_accepts KForward (JStr "down")
           startup H1 H2).
Defined.


Lemma telemetry_silent_until_due_witness :
  let tks := [mkTick None 100 100 0 0; mkTick (Some "{}") 2999 2999 0 0;
              mkTick None 3000 3000 0 0] in
  Forall (fun tk => now_check tk <= t startup + 3000
                    /\ inert_tick ref_loads tk = true) tks
  /\ status_count (trace (run ref_loads ref_eval ref_accepts tks startup)) = 0%nat.
Proof.
  cbv zeta.
  assert (H : Forall (fun tk => now_check tk <= t startup + 3000
                                /\ inert_tick ref_loads tk = true)
                [mkTick None 100 100 0 0; mkTick (Some "{}") 2999 2999 0 0;
                 mkTick None 3000 3000 0 0])
    by (repeat constructor; cbn; try lia; reflexivity).
  split; [exact H |].
  exact (proj1 (telemetry_silent_until_due ref_loads ref_eval ref_accepts _
                  startup H)).
Defined.

Lemma conversions_monotone_witness :
  30000 <= 40000 /\ (percent_of 30000 <= percent_of 40000)%Q.
Proof.
  assert (H : 30000 <= 40000) by lia.
  split; [exact H |].
  exact (proj1 (proj2 (conversions_monotone 30000 40000 H))).
Defined.

Lemma only_pulse_sleeps_witness :
  rgb_inert (frame1 "ToyGPIO15" "on") = true
  /\ eq_str (lookup_key (frame1 "ToyGPIO15" "on") "ToyGPIO15Pulse") "pulse" = false
  /\ Forall not_a_sleep
       (trace (process ref_eval ref_accepts (frame1 "ToyGPIO15" "on") startup)).
Proof.
  split; [reflexivity |]. split; [reflexivity |].
  exact (only_pulse_sleeps ref_eval ref_accepts (frame1 "ToyGPIO15" "on") startup
           eq_refl eq_refl).
Defined.

Lemma frame_as_single_key_frames_witness :
  let m : gmap string jvalue :=
    <["RGB" := JStr "255,0,0"]> {[ "BZ" := JStr "on" ]} in
  rgb_inert (JDict m) = true
  /\ try_body ref_eval ref_accepts (JDict m) startup
     = try_bodies ref_eval ref_accepts (map (only_key m) key_order) startup.
Proof.
  cbv zeta. split; [reflexivity |].
  exact (frame_as_single_key_frames ref_eval ref_accepts
           (<["RGB" := JStr "255,0,0"]> {[ "BZ" := JStr "on" ]}) startup eq_refl).
Defined.

Lemma reachable_states_well_formed_witness :
  let tks := [mkTick (Some (json1 "High" "Down")) 0 0 0 0;
              mkTick (Some (json2 "Forward" "Down" "RGB" "1,2,3")) 5000 5001 0 0] in
  Forall (fun tk => inert_tick ref_loads tk = true) tks
  /\ well_formed (final (run ref_loads ref_eval ref_accepts tks startup)).
Proof.
  cbv zeta.
  assert (H : Forall (fun tk => inert_tick ref_loads tk = true)
                [mkTick (Some (json1 "High" "Down")) 0 0 0 0;
                 mkTick (Some (json2 "Forward" "Down" "RGB" "1,2,3")) 5000 5001 0 0])
    by (repeat constructor).
  split; [exact H |].
  exact (reachable_states_well_formed ref_loads ref_eval ref_accepts _ H).
Defined.

Lemma preset_precedence_witness :
  let j := JDict (<["High" := JStr "Down"]> {[ "Low" := JStr "Down" ]}) in
  rgb_inert j = true
  /\ speed (final (process ref_eval ref_accepts j startup)) = 80.
Proof.
  cbv zeta. split; [reflexivity |].
  exact (preset_precedence ref_eval ref_accepts
           (JDict (<["High" := JStr "Down"]> {[ "Low" := JStr "Down" ]}))
           startup eq_refl).
Defined.

Lemma telemetry_ignores_frames_witness :
  let tks := [mkTick (Some (json1 "BZ" "on")) 3500 3501 0 0;
              mkTick (Some (json1 "RGB" "255,0,0")) 7000 7001 0 0] in
  Forall (fun tk => inert_tick ref_loads tk = true) tks
  /\ status_events (trace (run ref_loads ref_eval ref_accepts tks startup))
     = trace (run ref_loads ref_eval ref_accepts (map idle_tick tks) startup).
Proof.
  cbv zeta.
  assert (H : Forall (fun tk => inert_tick ref_loads tk = true)
                [mkTick (Some (json1 "BZ" "on")) 3500 3501 0 0;
                 mkTick (Some (json1 "RGB" "255,0,0")) 7000 7001 0 0])
    by (repeat constructor).
  split; [exact H |].
  exact (proj1 (telemetry_ignores_frames ref_loads ref_eval ref_accepts _
                  startup H)).
Defined.

Lemma direction_precedence_witness :
  let j := JDict (<["Left" := JStr "Up"]> {[ "Forward" := JStr "Down" ]}) in
  rgb_inert j = true
  /\ motor (final (process ref_eval ref_accepts j startup)) = Stopped.
Proof.
  cbv zeta. split; [reflexivity |].
  exact (direction_precedence ref_eval ref_accepts
           (JDict (<["Left" := JStr "Up"]> {[ "Forward" := JStr "Down" ]}))
           startup eq_refl).
Defined.
